(** * YolovFeed front end: the camera state store, the detection overlay
      and the audio feedback layer

    A shallow embedding of three TypeScript sources:
    - the [CameraProvider] of [contexts/SocketContext.tsx] (the reducer over
      socket messages and the start / stop / toggle commands),
    - [components/InteractiveCameraStream.tsx] (screen coordinates, the
      clickable-detections effect, the per-class sound cooldown, the
      bounding-box painter),
    - [services/AudioManager.ts] (cue resolution, volume tiers, master
      volume).

    Conventions.  A JavaScript [number] is a rational or one of the three
    special values; rounding of doubles is not modelled.  A JavaScript
    string is held as its UTF-8 bytes, so a character outside the ASCII
    range takes two to four bytes.  A JavaScript object used as a
    dictionary is a [gmap] over [string] keys.  An optional field is an
    [option].  React state is the value captured by the functions of one
    render; a setter call only queues an updater, which is applied when the
    next render commits. *)

From stdpp Require Import base option list strings gmap pretty.
From Stdlib Require Import ZArith QArith Qminmax Qround Qabs Lia Lqa.

Local Open Scope string_scope.
Local Open Scope list_scope.

(* ===================================================================== *)
(** ** JavaScript numbers and truthiness                                  *)
(* ===================================================================== *)

Module Js.

(** [number]: finite values are exact rationals. *)
Inductive number : Type :=
| Num (q : Q)
| PInf
| NInf
| NaN.

Definition Qltb (a b : Q) : bool := negb (Qle_bool b a).
Definition Qzero (a : Q) : bool := Qeq_bool a 0.

(** [isNaN(x)] for a value whose [typeof] is ['number']. *)
Definition isNaN (x : number) : bool :=
  match x with NaN => true | _ => false end.

(** [a > b]; every comparison with NaN is false. *)
Definition gt (a b : number) : bool :=
  match a, b with
  | NaN, _ | _, NaN => false
  | Num x, Num y => Qltb y x
  | PInf, PInf => false
  | PInf, _ => true
  | NInf, _ => false
  | Num _, NInf => true
  | Num _, PInf => false
  end.

(** [Math.min(a, b)] and [Math.max(a, b)]: NaN if either argument is. *)
Definition Math_min (a b : number) : number :=
  match a, b with
  | NaN, _ | _, NaN => NaN
  | NInf, _ | _, NInf => NInf
  | PInf, y => y
  | x, PInf => x
  | Num x, Num y => Num (Qmin x y)
  end.

Definition Math_max (a b : number) : number :=
  match a, b with
  | NaN, _ | _, NaN => NaN
  | PInf, _ | _, PInf => PInf
  | NInf, y => y
  | x, NInf => x
  | Num x, Num y => Num (Qmax x y)
  end.

Definition neg (a : number) : number :=
  match a with
  | Num x => Num (- x)
  | PInf => NInf
  | NInf => PInf
  | NaN => NaN
  end.

(** The sign of a finite value selects the infinity of a product or of a
    quotient by zero. *)
Definition signed_inf (x : Q) : number :=
  if Qzero x then NaN else if Qltb 0 x then PInf else NInf.

Definition mul (a b : number) : number :=
  match a, b with
  | NaN, _ | _, NaN => NaN
  | Num x, Num y => Num (x * y)
  | Num x, PInf | PInf, Num x => signed_inf x
  | Num x, NInf | NInf, Num x => neg (signed_inf x)
  | PInf, PInf | NInf, NInf => PInf
  | PInf, NInf | NInf, PInf => NInf
  end.

Definition div (a b : number) : number :=
  match a, b with
  | NaN, _ | _, NaN => NaN
  | Num x, Num y => if Qzero y then signed_inf x else Num (x / y)
  | Num _, (PInf | NInf) => Num 0
  | PInf, Num y => if Qltb y 0 then NInf else PInf
  | NInf, Num y => if Qltb y 0 then PInf else NInf
  | (PInf | NInf), (PInf | NInf) => NaN
  end.

Definition add (a b : number) : number :=
  match a, b with
  | NaN, _ | _, NaN => NaN
  | Num x, Num y => Num (x + y)
  | PInf, NInf | NInf, PInf => NaN
  | PInf, _ | _, PInf => PInf
  | NInf, _ | _, NInf => NInf
  end.

Definition sub (a b : number) : number := add a (neg b).

(** Truthiness: [0] and NaN are falsy numbers, [""] is the falsy string,
    a missing property ([undefined]) is falsy. *)
Definition truthy_number (x : number) : bool :=
  match x with
  | Num q => negb (Qzero q)
  | NaN => false
  | PInf | NInf => true
  end.

Definition truthy_string (s : string) : bool := negb (String.eqb s "").

Definition truthy {A} (f : A -> bool) (o : option A) : bool :=
  match o with Some a => f a | None => false end.

(** [o || d] for an optional property [o]. *)
Definition or_else {A} (f : A -> bool) (o : option A) (d : A) : A :=
  match o with
  | Some a => if f a then a else d
  | None => d
  end.

(** A finite value lying in the closed unit interval. *)
Definition in_unit_interval (x : number) : Prop :=
  match x with
  | Num q => (0 <= q /\ q <= 1)%Q
  | _ => False
  end.

(** Two numbers denote the same value. *)
Definition same (a b : number) : Prop :=
  match a, b with
  | Num x, Num y => (x == y)%Q
  | PInf, PInf | NInf, NInf | NaN, NaN => True
  | _, _ => False
  end.

(** *** Lower-casing

    On a string of ASCII characters [String.prototype.toLowerCase] maps the
    letters A to Z to a to z and keeps every other character. *)
Definition lower_ascii (c : Ascii.ascii) : Ascii.ascii :=
  let n := Ascii.nat_of_ascii c in
  if (65 <=? n)%nat && (n <=? 90)%nat then Ascii.ascii_of_nat (n + 32) else c.

Fixpoint lower (s : string) : string :=
  match s with
  | EmptyString => EmptyString
  | String c r => String (lower_ascii c) (lower r)
  end.

(** Every character of the string is an ASCII character. *)
Fixpoint is_ascii (s : string) : bool :=
  match s with
  | EmptyString => true
  | String c r => (Ascii.nat_of_ascii c <? 128)%nat && is_ascii r
  end.

(** What the method does to the other characters is fixed by the Unicode
    case tables of the engine, which are not reproduced here: the method is
    a parameter, known to be [lower] on ASCII strings and left open on all
    others. *)
Class LowerCase : Type := {
  toLowerCase : string -> string;
  toLowerCase_ascii : forall s, is_ascii s = true -> toLowerCase s = lower s
}.

(** Reading [obj[key]] on an object literal: an own property, a member
    inherited from [Object.prototype], or [undefined]. *)
Definition Object_prototype : list string :=
  [ "constructor"; "__defineGetter__"; "__defineSetter__"; "hasOwnProperty";
    "__lookupGetter__"; "__lookupSetter__"; "isPrototypeOf";
    "propertyIsEnumerable"; "toString"; "valueOf"; "__proto__";
    "toLocaleString" ].

Inductive property (A : Type) : Type :=
| Own (v : A)
| Inherited (member : string)
| Missing.
Arguments Own {A} v.
Arguments Inherited {A} member.
Arguments Missing {A}.

Definition get {A} (obj : gmap string A) (key : string) : property A :=
  match obj !! key with
  | Some v => Own v
  | None => if bool_decide (key ∈ Object_prototype) then Inherited key else Missing
  end.

(** The value of [obj[key] || fallback] on a table of strings: a string,
    or the inherited function or object (truthy, and not a string). *)
Inductive value : Type :=
| Str (s : string)
| Obj (member : string).

Definition get_or (obj : gmap string string) (key fallback : string) : value :=
  match get obj key with
  | Own v => if truthy_string v then Str v else Str fallback
  | Inherited m => Obj m
  | Missing => Str fallback
  end.

(** An argument whose run-time type the callee inspects with [typeof]: a
    string, a number, or any other value ([undefined], [null], a boolean, a
    symbol, an object).  [printable] tells whether converting the value to
    a string returns: it throws a TypeError for a symbol and for an object
    whose conversion methods throw or return no primitive.  (The conversion
    methods of an object are taken to leave the audio manager alone.) *)
Inductive arg : Type :=
| a_string (s : string)
| a_number (n : number)
| a_other (printable : bool).

(** Whether [`${a}`] returns. *)
Definition interpolates (a : arg) : bool :=
  match a with
  | a_other printable => printable
  | _ => true
  end.

(** A call either returns or throws to its caller. *)
Inductive outcome (A : Type) : Type :=
| Return (a : A)
| Throw.
Arguments Return {A} a.
Arguments Throw {A}.

End Js.

(* ===================================================================== *)
(** ** Shared types ([types/index.ts])                                    *)
(* ===================================================================== *)

Module Types.
Import Js.

Record BBox : Type := mkBBox {
  x1 : number; y1 : number; x2 : number; y2 : number;
  width : number; height : number
}.

(** [class_name] and [confidence] are declared optional; the consumers
    also test [bbox] for presence, so it is optional here as well. *)
Record Detection : Type := mkDetection {
  class_name : option string;
  confidence : option number;
  bbox : option BBox
}.

(** [ObjectCount]: class name to count. *)
Abbreviation ObjectCount := (gmap string Z).

(** [WebSocketMessage]: a [type] tag and optional payload fields. *)
Record WebSocketMessage : Type := mkMessage {
  type : string;
  camera_id : option string;
  frame : option string;
  detections : option (list Detection);
  object_counts : option ObjectCount;
  enabled : option bool;
  timestamp : option string
}.

(** One value of the [CameraStatus] dictionary.  An entry built by
    spreading a missing entry has only the fields that were written. *)
Record CameraRuntimeState : Type := mkStatus {
  isStreaming : option bool;
  isDetecting : option bool;
  lastSeen : option string;
  error : option string
}.

End Types.

(* ===================================================================== *)
(** ** The per-camera state store ([CameraProvider])                      *)
(* ===================================================================== *)

Module CameraContext.
Import Js Types.

(** The four dictionaries held in React state by the provider. *)
Record Store : Type := mkStore {
  cameraStatuses : gmap string CameraRuntimeState;
  detectionResults : gmap string WebSocketMessage;
  cameraStreams : gmap string (option string);
  objectCounts : gmap string ObjectCount
}.

Definition empty_store : Store := mkStore ∅ ∅ ∅ ∅.

(** [{ ...prev[id] }]: spreading [undefined] yields the empty object. *)
Definition spread (prev : gmap string CameraRuntimeState) (id : string)
  : CameraRuntimeState :=
  default (mkStatus None None None None) (prev !! id).

(** A computed key [[message.camera_id]]: a missing identifier is
    converted to the property name ["undefined"]. *)
Definition key_of (message : WebSocketMessage) : string :=
  default "undefined" (camera_id message).

(** [message.timestamp || new Date().toISOString()] *)
Definition stamp (now_iso : string) (message : WebSocketMessage) : string :=
  or_else truthy_string (timestamp message) now_iso.

(** [handleSocketMessage], after [JSON.parse].  [now_iso] is the reading
    of [new Date().toISOString()]. *)
Definition handleSocketMessage (now_iso : string)
    (message : WebSocketMessage) (st : Store) : Store :=
  let id := key_of message in
  if decide (type message = "frame") then
    let streams := <[id := frame message]> (cameraStreams st) in
    let statuses :=
      <[id := let s := spread (cameraStatuses st) id in
              mkStatus (Some true) (isDetecting s)
                       (Some (stamp now_iso message)) (error s)]>
        (cameraStatuses st) in
    mkStore statuses (detectionResults st) streams (objectCounts st)
  else if decide (type message = "detection") then
    let results := <[id := message]> (detectionResults st) in
    let counts :=
      match object_counts message with
      | Some oc => <[id := oc]> (objectCounts st)
      | None => objectCounts st
      end in
    let statuses :=
      <[id := let s := spread (cameraStatuses st) id in
              mkStatus (isStreaming s) (Some true)
                       (Some (stamp now_iso message)) (error s)]>
        (cameraStatuses st) in
    mkStore statuses results (cameraStreams st) counts
  else if decide (type message = "detection_status") then
    let statuses :=
      <[id := let s := spread (cameraStatuses st) id in
              mkStatus (isStreaming s)
                       (Some (or_else (fun b : bool => b) (enabled message) false))
                       (lastSeen s) (error s)]>
        (cameraStatuses st) in
    mkStore statuses (detectionResults st) (cameraStreams st) (objectCounts st)
  else
    (* 'pong' and unknown types only log *)
    st.

(** A frame event addressed to camera [cam]. *)
Definition frame_for (cam : string) (message : WebSocketMessage) : Prop :=
  type message = "frame" /\ camera_id message = Some cam.

(** Messages are folded in arrival order. *)
Definition handleAll (now_iso : string) (ms : list WebSocketMessage)
    (st : Store) : Store :=
  foldl (fun acc m => handleSocketMessage now_iso m acc) st ms.

(** *** Commands.  [await cameraAPI.x(...)] either resolves or rejects. *)
Inductive ack : Type := Resolved | Rejected.

Inductive toast : Type :=
| toast_success (text : string)
| toast_error (text : string).

(** What an [async] command leaves behind: the store, the notification
    shown, and whether the returned promise rejects ([throw error]). *)
Record result : Type := mkResult {
  store : Store;
  shown : toast;
  rethrown : bool
}.

Definition set_status (f : CameraRuntimeState -> CameraRuntimeState)
    (cameraId : string) (st : Store) : Store :=
  mkStore (<[cameraId := f (spread (cameraStatuses st) cameraId)]> (cameraStatuses st))
          (detectionResults st) (cameraStreams st) (objectCounts st).

Definition startCamera (a : ack) (cameraId : string) (st : Store) : result :=
  match a with
  | Resolved =>
      mkResult
        (set_status (fun s => mkStatus (Some true) (isDetecting s) (lastSeen s) None)
                    cameraId st)
        (toast_success "Camera started") false
  | Rejected =>
      mkResult
        (set_status (fun s => mkStatus (Some false) (isDetecting s) (lastSeen s)
                                       (Some "Failed to start camera"))
                    cameraId st)
        (toast_error "Failed to start camera") true
  end.

Definition stopCamera (a : ack) (cameraId : string) (st : Store) : result :=
  match a with
  | Resolved =>
      let st1 :=
        set_status (fun s => mkStatus (Some false) (Some false) (lastSeen s) None)
                   cameraId st in
      (* Clear camera data *)
      let st2 :=
        mkStore (cameraStatuses st1) (detectionResults st1)
                (delete cameraId (cameraStreams st1)) (objectCounts st1) in
      mkResult st2 (toast_success "Camera stopped") false
  | Rejected =>
      mkResult st (toast_error "Failed to stop camera") true
  end.

Definition toggleDetection (a : ack) (cameraId : string) (enabled : bool)
    (st : Store) : result :=
  match a with
  | Resolved =>
      let st1 :=
        set_status (fun s => mkStatus (isStreaming s) (Some enabled) (lastSeen s) (error s))
                   cameraId st in
      let st2 :=
        if negb enabled then
          (* Clear detection results when disabling *)
          mkStore (cameraStatuses st1) (delete cameraId (detectionResults st1))
                  (cameraStreams st1) (delete cameraId (objectCounts st1))
        else st1 in
      mkResult st2
        (toast_success ("Detection " +:+ (if enabled then "enabled" else "disabled")))
        false
  | Rejected =>
      mkResult st (toast_error "Failed to toggle detection") true
  end.

End CameraContext.

(* ===================================================================== *)
(** ** The audio feedback layer ([AudioManager])                          *)
(* ===================================================================== *)

Module AudioManager.
Import Js.

(** The output graph.  [createBufferSource], [createGain], [connect] and
    [start] can throw (for instance on a closed context). *)
Record AudioContext : Type := mkContext { closed : bool }.

Record t : Type := mkManager {
  audioContext : option AudioContext;
  soundBuffers : gset string;
  enabled : bool;
  masterVolume : number
}.

(** Field initialisers of the class. *)
Definition new : t := mkManager None ∅ true (Num (7 # 10)).

(** The names registered by [loadSounds]. *)
Definition soundEffects : list string :=
  [ "person"; "car"; "dog"; "cat"; "bird"; "bicycle"; "motorcycle"; "bus";
    "truck"; "click"; "success"; "warning"; "error"; "multiple_objects";
    "high_confidence" ].

Definition loadSounds (am : t) : t :=
  match audioContext am with
  | None => am
  | Some _ =>
      mkManager (audioContext am)
                (foldl (fun acc name => {[ name ]} ∪ acc) (soundBuffers am) soundEffects)
                (enabled am) (masterVolume am)
  end.

(** What a call leaves behind: console lines and started sources. *)
Inductive event : Type :=
| log_disabled
| log_no_context
| log_not_found (soundName : value)
| log_failed
| warn_invalid_objectType
| source_started (soundName : string) (gain : number).

(** The body of the [try] block of [playSound]. *)
Definition start_source (ctx : AudioContext) (name : string) (gain : number)
  : outcome (list event) :=
  if closed ctx then Throw else Return [source_started name gain].

(** [playSound(soundName, volume)].  The [async] function's promise is
    dropped by every caller; the [catch] turns a throw into a log line.
    [Map.prototype.has] finds string keys only. *)
Definition playSound (am : t) (soundName : value) (volume : number) : list event :=
  if negb (enabled am) then [log_disabled]
  else match audioContext am with
  | None => [log_no_context]
  | Some ctx =>
      match soundName with
      | Obj _ => [log_not_found soundName]
      | Str name =>
          if negb (bool_decide (name ∈ soundBuffers am)) then [log_not_found soundName]
          else
            let gain :=
              mul (mul (Math_min volume (Num 1)) (Num (1 # 2))) (masterVolume am) in
            match start_source ctx name gain with
            | Return evs => evs
            | Throw => [log_failed]
            end
      end
  end.

Definition setEnabled (b : bool) (am : t) : t :=
  mkManager (audioContext am) (soundBuffers am) b (masterVolume am).

Definition isEnabled (am : t) : bool := enabled am.

Definition setMasterVolume (volume : number) (am : t) : t :=
  mkManager (audioContext am) (soundBuffers am) (enabled am)
            (Math_max (Num 0) (Math_min (Num 1) volume)).

Definition getMasterVolume (am : t) : number := masterVolume am.

(** The class-to-cue table of [playObjectDetectionSound]. *)
Definition soundMap : gmap string string :=
  list_to_map
    [ ("person", "person"); ("car", "car"); ("truck", "truck"); ("bus", "bus");
      ("motorcycle", "motorcycle"); ("bicycle", "bicycle"); ("dog", "dog");
      ("cat", "cat"); ("bird", "bird"); ("chair", "click"); ("bottle", "click");
      ("laptop", "click"); ("cell phone", "click"); ("book", "click") ].

(** [confidence > 0.8 ? 1 : confidence > 0.5 ? 0.7 : 0.5] *)
Definition volume_tier (confidence : number) : number :=
  if gt confidence (Num (8 # 10)) then Num 1
  else if gt confidence (Num (5 # 10)) then Num (7 # 10)
  else Num (5 # 10).

(** [typeof confidence !== 'number' || isNaN(confidence)] replaces the
    argument by the default confidence. *)
Definition checked_confidence (confidence : arg) : number :=
  match confidence with
  | a_number n => if isNaN n then Num (5 # 10) else n
  | _ => Num (5 # 10)
  end.

(** The first statement logs a template literal that interpolates both
    arguments, before any of the guards. *)
Definition playObjectDetectionSound {lc : LowerCase} (am : t)
    (objectType confidence : arg) : outcome (list event) :=
  if negb (interpolates objectType && interpolates confidence) then Throw
  else
    match objectType with
    | a_string name =>
        if negb (truthy_string name) then Return [warn_invalid_objectType]
        else
          let confidence := checked_confidence confidence in
          let soundName := get_or soundMap (toLowerCase name) "click" in
          let volume := volume_tier confidence in
          Return (playSound am soundName volume)
    | _ => Return [warn_invalid_objectType]
    end.

(** [initialize]: the constructor throws, or [resume] rejects after the
    context was stored, or the sounds get loaded.  Every failure is caught. *)
Inductive init : Type :=
| init_no_context
| init_resume_rejected (ctx : AudioContext)
| init_ready (ctx : AudioContext).

Definition initialize (i : init) (am : t) : t :=
  match i with
  | init_no_context => am
  | init_resume_rejected ctx =>
      mkManager (Some ctx) (soundBuffers am) (enabled am) (masterVolume am)
  | init_ready ctx =>
      loadSounds (mkManager (Some ctx) (soundBuffers am) (enabled am) (masterVolume am))
  end.

(** The public operations of the singleton. *)
Inductive op : Type :=
| op_initialize (i : init)
| op_setEnabled (b : bool)
| op_setMasterVolume (volume : number)
| op_playSound (soundName : value) (volume : number)
| op_playObjectDetectionSound (objectType confidence : arg).

Definition apply (am : t) (o : op) : t :=
  match o with
  | op_initialize i => initialize i am
  | op_setEnabled b => setEnabled b am
  | op_setMasterVolume v => setMasterVolume v am
  | op_playSound _ _ => am
  | op_playObjectDetectionSound _ _ => am
  end.

Definition run (ops : list op) : t := foldl apply new ops.

(** The volume setter was never handed NaN. *)
Definition NaN_free (o : op) : Prop :=
  match o with
  | op_setMasterVolume v => isNaN v = false
  | _ => True
  end.

End AudioManager.

(* ===================================================================== *)
(** ** The interactive stream component ([InteractiveCameraStream])       *)
(* ===================================================================== *)

Module InteractiveCameraStream.
Import Js Types.

(** [getBoundingClientRect()] *)
Record DOMRect : Type := mkRect {
  rect_left : number; rect_top : number;
  rect_width : number; rect_height : number
}.

(** The canvas element: its pixel size and its layout rectangle. *)
Record Canvas : Type := mkCanvas {
  canvas_width : number;
  canvas_height : number;
  canvas_rect : DOMRect
}.

Record Refs : Type := mkRefs {
  canvasRef : option Canvas;
  containerRef : option DOMRect
}.

Record ScreenCoords : Type := mkCoords {
  screenX : number; screenY : number;
  screenWidth : number; screenHeight : number
}.

Definition calculateScreenCoordinates (refs : Refs) (detection : Detection)
    (imageWidth imageHeight : number) : option ScreenCoords :=
  match canvasRef refs, containerRef refs, bbox detection with
  | Some canvas, Some containerRect, Some b =>
      let canvasRect := canvas_rect canvas in
      (* Calculate scaling factors *)
      let scaleX := div (rect_width canvasRect) imageWidth in
      let scaleY := div (rect_height canvasRect) imageHeight in
      (* Convert bbox to screen coordinates *)
      let sX := mul (x1 b) scaleX in
      let sY := mul (y1 b) scaleY in
      let sW := mul (width b) scaleX in
      let sH := mul (height b) scaleY in
      Some (mkCoords (sub (add sX (rect_left canvasRect)) (rect_left containerRect))
                     (sub (add sY (rect_top canvasRect)) (rect_top containerRect))
                     sW sH)
  | _, _, _ => None
  end.

(** [{ ...detection, id, ...screenCoords }] *)
Record ClickableDetection : Type := mkClickable {
  source : Detection;
  id : string;
  coords : ScreenCoords
}.

(** *** The sound cooldown *)

Definition SOUND_COOLDOWN : Z := 1000.

(** A call that passed the cooldown test: the arguments handed to
    [AudioManager.playObjectDetectionSound], and the time that the queued
    updater [prev => ({ ...prev, [objectType]: now })] will record. *)
Record sound : Type := mkSound {
  objectType : string;
  loudness : number;
  at_time : Z
}.

(** [now - (lastSoundTime[objectType] || 0) > SOUND_COOLDOWN].  An
    inherited member is truthy and turns the difference into NaN. *)
Definition cooled_down (lastSoundTime : gmap string Z) (objectType : string)
    (now : Z) : bool :=
  match get lastSoundTime objectType with
  | Own lastPlayTime => (SOUND_COOLDOWN <? now - lastPlayTime)%Z
  | Inherited _ => false
  | Missing => (SOUND_COOLDOWN <? now - 0)%Z
  end.

(** [playDetectionSound], a closure over [enableSoundAlerts] and over the
    [lastSoundTime] of the render that created it.  [now] is the reading
    of [Date.now()]. *)
Definition playDetectionSound (enableSoundAlerts : bool)
    (lastSoundTime : gmap string Z)
    (objectType : string) (confidence : number) (now : Z) : option sound :=
  if negb enableSoundAlerts || negb (truthy_string objectType) then None
  else if cooled_down lastSoundTime objectType now
       then Some (mkSound objectType
                          (or_else truthy_number (Some confidence) (Num (5 # 10)))
                          now)
       else None.

(** The next render sees the queued updaters applied in order. *)
Definition commit (lastSoundTime : gmap string Z) (queued : list sound)
  : gmap string Z :=
  foldl (fun prev s => <[objectType s := at_time s]> prev) lastSoundTime queued.

(** *** The clickable-detections effect *)

(** [list.forEach((x, index) => ...)] with an accumulator. *)
Fixpoint forEach {A B : Type} (body : B -> nat -> A -> B) (l : list A)
    (index : nat) (acc : B) : B :=
  match l with
  | [] => acc
  | x :: rest => forEach body rest (S index) (body acc index x)
  end.

(** One run of the effect: the items pushed so far, the sound calls that
    passed the cooldown, and how many times [Date.now()] was read. *)
Record pass : Type := mkPass {
  clickableItems : list ClickableDetection;
  sounds : list sound;
  ticks : nat
}.

(** The test of both loops, [!detection.bbox || !detection.class_name],
    negated: both fields are truthy. *)
Definition present (detection : Detection) : bool :=
  truthy (fun _ : BBox => true) (bbox detection)
  && truthy truthy_string (class_name detection).


Section Effect.
Variable cameraId : string.
Variables enableObjectClick enableSoundAlerts : bool.
(** State and refs as captured by the render that scheduled the effect. *)
Variable lastSoundTime : gmap string Z.
Variable refs : Refs.
(** Successive readings of [Date.now()]. *)
Variable clock : nat -> Z.

Definition forEach_body (canvas : Canvas) (acc : pass) (index : nat)
    (detection : Detection) : pass :=
  (* Skip if essential detection data is missing *)
  if negb (present detection) then acc
  else
    match calculateScreenCoordinates refs detection
            (canvas_width canvas) (canvas_height canvas) with
    | None => acc
    | Some screenCoords =>
        let item :=
          mkClickable detection
            (cameraId +:+ "-" +:+ pretty index +:+ "-" +:+ pretty (clock (ticks acc)))
            screenCoords in
        let pushed :=
          mkPass (clickableItems acc ++ [item]) (sounds acc) (S (ticks acc)) in
        (* Play sound for new detections *)
        match class_name detection with
        | Some c =>
            if enableSoundAlerts && truthy_string c then
              let played :=
                playDetectionSound enableSoundAlerts lastSoundTime c
                  (or_else truthy_number (confidence detection) (Num (5 # 10)))
                  (clock (ticks pushed)) in
              mkPass (clickableItems pushed)
                     (sounds pushed ++ option_list played)
                     (S (ticks pushed))
            else pushed
        | None => pushed
        end
    end.

(** The effect.  [None]: it returned before [setClickableDetections]. *)
Definition clickable_effect (detections : option WebSocketMessage)
  : option pass :=
  let dets := if enableObjectClick
              then result ← detections; Types.detections result
              else None in
  match dets with
  | None => Some (mkPass [] [] 0)
  | Some dets =>
      match canvasRef refs with
      | None => None
      | Some canvas =>
          Some (forEach (forEach_body canvas) dets 0 (mkPass [] [] 0))
      end
  end.

End Effect.

(** *** The bounding-box painter *)

Definition colors : gmap string string :=
  list_to_map
    [ ("person", "#ff6b6b"); ("car", "#4ecdc4"); ("truck", "#45b7d1");
      ("bus", "#96ceb4"); ("motorcycle", "#ffeaa7"); ("bicycle", "#fd79a8");
      ("dog", "#fdcb6e"); ("cat", "#e17055"); ("bird", "#81ecec") ].

(** The label reads [class_name (percent.toFixed(0)%)]; it is kept as its
    two ingredients. *)
Inductive text : Type :=
| label (class_name : string) (percent : number)
| speaker_icon.

(** Calls on the 2D context, each with the style in force. *)
Inductive canvas_op : Type :=
| clearRect (x y w h : number)
| drawImage (x y : number)
| strokeRect (strokeStyle : value) (lineWidth : Z) (x y w h : number)
| fillRect (fillStyle : value) (x y w h : number)
| fillText (fillStyle : value) (font : string) (t : text) (x y : number)
| fillArc (fillStyle : value) (x y radius : number).

Section Painter.
Context {lc : LowerCase}.
Variable enableObjectClick : bool.
(** [ctx.measureText(label).width] *)
Variable measureText : text -> number.

Definition paint (detection : Detection) : list canvas_op :=
  match class_name detection, bbox detection with
  | Some c, Some b =>
      (* Skip detection if essential data is missing *)
      if negb (truthy_string c) then []
      else
        let color := get_or colors (toLowerCase c) "#74b9ff" in
        let confidenceValue := or_else truthy_number (confidence detection) (Num 0) in
        let lbl := label c (mul confidenceValue (Num 100)) in
        let labelHeight := Num 20 in
        [ strokeRect color 3 (x1 b) (y1 b) (width b) (height b);
          fillRect color (x1 b) (sub (y1 b) labelHeight)
                   (add (measureText lbl) (Num 10)) labelHeight;
          fillText (Str "white") "14px Arial" lbl
                   (add (x1 b) (Num 5)) (sub (y1 b) (Num 5)) ]
        ++ (if enableObjectClick then
              [ fillArc (Str "rgba(255, 255, 255, 0.8)")
                        (sub (add (x1 b) (width b)) (Num 15)) (add (y1 b) (Num 15))
                        (Num 8);
                fillText color "12px Arial" speaker_icon
                         (sub (add (x1 b) (width b)) (Num 15)) (add (y1 b) (Num 19)) ]
            else [])
  | _, _ => []
  end.

Definition drawBoundingBoxes (detections : list Detection) : list canvas_op :=
  forEach (fun (ops : list canvas_op) _ detection => ops ++ paint detection)
          detections 0 [].

(** [img.onload]: size the canvas to the image, blit it, then annotate. *)
Definition onload (img_width img_height : number)
    (detections : option WebSocketMessage) : list canvas_op :=
  [ clearRect (Num 0) (Num 0) img_width img_height; drawImage (Num 0) (Num 0) ]
  ++ match detections with
     | Some result =>
         match Types.detections result with
         | Some dets => if enableObjectClick then drawBoundingBoxes dets else []
         | None => []
         end
     | None => []
     end.

End Painter.

End InteractiveCameraStream.

(* ===================================================================== *)
(** ** A running scenario: camera ["cam-1"], one person in a 640x480 frame *)
(* ===================================================================== *)

Module Scenario.
Import Js Types.

(** The class names of the scenarios are ASCII strings, on which the
    lower-casing of every engine is [lower]. *)
Definition lower_case : LowerCase :=
  {| toLowerCase := lower; toLowerCase_ascii := fun s _ => eq_refl |}.

Definition now_iso : string := "2024-05-01T10:00:00.000Z".

Definition person : Detection :=
  mkDetection (Some "person") (Some (Num (92 # 100)))
    (Some (mkBBox (Num 100) (Num 50) (Num 200) (Num 300) (Num 100) (Num 250))).

Definition frame_event : WebSocketMessage :=
  mkMessage "frame" (Some "cam-1") (Some "/9j/4AAQSkZJRg==") None None None
            (Some "2024-05-01T09:59:58.000Z").

Definition detection_event : WebSocketMessage :=
  mkMessage "detection" (Some "cam-1") None (Some [person])
            (Some {[ "person" := 1%Z ]}) None (Some "2024-05-01T09:59:59.000Z").

(** The same event without the optional [object_counts] field. *)
Definition bare_detection_event : WebSocketMessage :=
  mkMessage "detection" (Some "cam-1") None (Some [person]) None None None.

(** Two people in one frame. *)
Definition crowd_event : WebSocketMessage :=
  mkMessage "detection" (Some "cam-1") None (Some [person; person])
            (Some {[ "person" := 2%Z ]}) None (Some "2024-05-01T09:59:59.000Z").





Definition status_off_event : WebSocketMessage :=
  mkMessage "detection_status" (Some "cam-1") None None None (Some false) None.

(** The store after the frame and the detection event were folded in. *)
Definition detecting : CameraContext.Store :=
  CameraContext.handleAll now_iso [frame_event; detection_event]
    CameraContext.empty_store.

(** A canvas of 640x480 pixels laid out at half size, 10 px right of and
    20 px below the corner of its container. *)
Definition canvas : InteractiveCameraStream.Canvas :=
  InteractiveCameraStream.mkCanvas (Num 640) (Num 480)
    (InteractiveCameraStream.mkRect (Num 10) (Num 20) (Num 320) (Num 240)).

Definition refs : InteractiveCameraStream.Refs :=
  InteractiveCameraStream.mkRefs (Some canvas)
    (Some (InteractiveCameraStream.mkRect (Num 0) (Num 0) (Num 400) (Num 300))).

(** [Date.now()] advances by one millisecond per reading. *)
Definition clock (n : nat) : Z := (1714557600000 + Z.of_nat n)%Z.

(** An initialised audio manager. *)
Definition audio : AudioManager.t :=
  AudioManager.initialize (AudioManager.init_ready (AudioManager.mkContext false))
    AudioManager.new.

End Scenario.


(* ===================================================================== *)
(** ** The provider's camera list and its CRUD commands                   *)
(* ===================================================================== *)

Module CameraProvider.
Import Js Types CameraContext.

(** [Camera] of [types/index.ts]. *)
Record Camera : Type := mkCamera {
  id : string;
  name : string;
  ip_address : string;
  port : number;
  is_active : bool;
  created_at : string;
  location : option string
}.

(** The state variables that the list commands read or write. *)
Record State : Type := mkState {
  cameras : list Camera;
  dicts : Store;
  isLoading : bool
}.

(** An awaited API call that resolves with a value, or rejects. *)
Inductive reply (A : Type) : Type :=
| resolves (a : A)
| rejects.
Arguments resolves {A} a.
Arguments rejects {A}.

Record result : Type := mkResult {
  after : State;
  shown : option toast;
  rethrown : bool
}.

(** The status given to a camera that was just listed or added. *)
Definition initial_status (camera : Camera) : CameraRuntimeState :=
  mkStatus (Some false) (Some false) (Some (created_at camera)) None.

(** [statuses[camera.id] = ...] on a plain object: an assignment to the key
    ["__proto__"] replaces the prototype and creates no property. *)
Definition assign {A} (obj : gmap string A) (key : string) (v : A) : gmap string A :=
  if String.eqb key "__proto__" then obj else <[key := v]> obj.

Definition initial_statuses (cameraList : list Camera)
  : gmap string CameraRuntimeState :=
  foldl (fun statuses camera => assign statuses (id camera) (initial_status camera))
        ∅ cameraList.

(** [refreshCameras]: the list and the status dictionary are replaced; a
    failure is only notified; [finally] resets [isLoading]. *)
Definition refreshCameras (r : reply (list Camera)) (s : State) : result :=
  match r with
  | resolves cameraList =>
      let d := dicts s in
      mkResult
        (mkState cameraList
                 (mkStore (initial_statuses cameraList) (detectionResults d)
                          (cameraStreams d) (objectCounts d))
                 false)
        None false
  | rejects =>
      mkResult (mkState (cameras s) (dicts s) false)
               (Some (toast_error "Failed to load cameras")) false
  end.

Definition addCamera (r : reply Camera) (s : State) : result :=
  match r with
  | resolves newCamera =>
      let d := dicts s in
      mkResult
        (mkState (cameras s ++ [newCamera])
                 (mkStore (<[id newCamera := initial_status newCamera]> (cameraStatuses d))
                          (detectionResults d) (cameraStreams d) (objectCounts d))
                 false)
        (Some (toast_success
                 ("Camera " +:+ String (Ascii.ascii_of_nat 34) (name newCamera)
                  +:+ String (Ascii.ascii_of_nat 34) " added successfully")))
        false
  | rejects =>
      mkResult (mkState (cameras s) (dicts s) false)
        (Some (toast_error
                 "Failed to add camera. Please check the IP address and port."))
        true
  end.

(** [deleteCamera]: the camera leaves the list and the four dictionaries. *)
Definition deleteCamera (a : ack) (cameraId : string) (s : State) : result :=
  match a with
  | Resolved =>
      let d := dicts s in
      mkResult
        (mkState
           (List.filter (fun camera => negb (String.eqb (id camera) cameraId)) (cameras s))
           (mkStore (delete cameraId (cameraStatuses d))
                    (delete cameraId (detectionResults d))
                    (delete cameraId (cameraStreams d))
                    (delete cameraId (objectCounts d)))
           (isLoading s))
        (Some (toast_success "Camera deleted successfully")) false
  | Rejected =>
      mkResult s (Some (toast_error "Failed to delete camera")) true
  end.

End CameraProvider.

(* ===================================================================== *)
(** ** Components that read the store                                     *)
(* ===================================================================== *)

Module Views.
Import Js Types CameraContext.

(** A status flag as a condition: [undefined] is falsy. *)
Definition flag (o : option bool) : bool := truthy (fun b : bool => b) o.

(** [cameraStatuses[id]] as read by a component: an inherited member is
    an object without any of the status fields. *)
Definition status_of (st : Store) (cameraId : string) : option CameraRuntimeState :=
  match get (cameraStatuses st) cameraId with
  | Own s => Some s
  | Inherited _ => Some (mkStatus None None None None)
  | Missing => None
  end.

(** *** [Header]: is any camera live? *)
Definition isLive (st : Store) : bool :=
  bool_decide (map_Exists (fun _ status =>
                 flag (isStreaming status) || flag (isDetecting status) = true)
               (cameraStatuses st)).

(** *** [CameraStream]: what the tile shows *)
Inductive tile : Type :=
| CameraOffline
| Connecting
| LiveCanvas.

(** [!currentStream] *)
Definition has_stream (st : Store) (cameraId : string) : bool :=
  match get (cameraStreams st) cameraId with
  | Own f => truthy truthy_string f
  | Inherited _ => true
  | Missing => false
  end.

(** [!status?.isStreaming] *)
Definition streaming (st : Store) (cameraId : string) : bool :=
  match status_of st cameraId with
  | Some s => flag (isStreaming s)
  | None => false
  end.

Definition CameraStream (st : Store) (cameraId : string) : tile :=
  if negb (streaming st cameraId) then CameraOffline
  else if negb (has_stream st cameraId) then Connecting
  else LiveCanvas.

(** *** [CameraCard] and the preview modal *)

(** [objectCounts[camera.id] || {}]; an inherited member has no own
    enumerable property. *)
Definition currentObjectCounts (st : Store) (cameraId : string) : ObjectCount :=
  match get (objectCounts st) cameraId with
  | Own counts => counts
  | _ => ∅
  end.

(** [Object.values(counts).reduce((sum, count) => sum + count, 0)] *)
Definition sum_counts (counts : ObjectCount) : Z :=
  map_fold (fun _ count sum => (sum + count)%Z) 0%Z counts.

Definition totalObjects (st : Store) (cameraId : string) : Z :=
  sum_counts (currentObjectCounts st cameraId).

(** [cameraStatuses[camera.id] || { isStreaming: false, isDetecting: false,
    lastSeen }] *)
Definition status_or_default (st : Store) (cameraId created_at : string)
  : CameraRuntimeState :=
  default (mkStatus (Some false) (Some false) (Some created_at) None)
          (status_of st cameraId).

(** The overlay ["Objects: n"] is rendered when
    [status.isDetecting && totalObjects > 0]. *)
Definition shows_object_count (st : Store) (cameraId created_at : string) : bool :=
  flag (isDetecting (status_or_default st cameraId created_at))
  && (0 <? totalObjects st cameraId)%Z.

(** The card's detection button: the command's rejection is caught and
    logged, so what remains is the store. *)
Definition handleToggleDetection (a : ack) (cameraId created_at : string)
    (st : Store) : Store :=
  store (toggleDetection a cameraId
           (negb (flag (isDetecting (status_or_default st cameraId created_at))))
           st).

(** The preview modal reads the status with a default of its own:
    [cameraStatuses[camera.id] || { isStreaming: false, isDetecting: false }]. *)
Definition modal_status (st : Store) (cameraId : string) : CameraRuntimeState :=
  default (mkStatus (Some false) (Some false) None None) (status_of st cameraId).

(** The preview modal's button: stop when streaming, start otherwise. *)
Definition handleStartStop (a : ack) (cameraId : string) (st : Store) : Store :=
  if flag (isStreaming (modal_status st cameraId))
  then store (stopCamera a cameraId st)
  else store (startCamera a cameraId st).

(** *** [Dashboard]: the real-time statistics *)

Definition all_counts (dict : gmap string ObjectCount) : Z :=
  map_fold (fun _ counts sum => (sum + sum_counts counts)%Z) 0%Z dict.

Definition totalDetections (st : Store) : Z := all_counts (objectCounts st).

(** [Object.values(counts).some(count => count > 0)] *)
Definition some_positive (counts : ObjectCount) : bool :=
  bool_decide (map_Exists (fun _ count => (0 < count)%Z) counts).

Definition detectingCameras (st : Store) : nat :=
  size (filter (fun kv => some_positive kv.2 = true) (objectCounts st)).

End Views.

(* ===================================================================== *)
(** ** The remaining entry points of the audio manager and their callers  *)
(* ===================================================================== *)

Module AudioApi.
Import Js Types AudioManager.

(** [playUISound(action)] and [playDetectionAlert(type)] call [playSound]
    with the default volume [1]. *)
Inductive ui_action : Type := ui_click | ui_success | ui_warning | ui_error.

Definition ui_name (action : ui_action) : string :=
  match action with
  | ui_click => "click"
  | ui_success => "success"
  | ui_warning => "warning"
  | ui_error => "error"
  end.

Definition playUISound (am : t) (action : ui_action) : list event :=
  playSound am (Str (ui_name action)) (Num 1).




(** Whether a call started a source. *)
Definition is_started (e : event) : bool :=
  match e with source_started _ _ => true | _ => false end.

(** A manager that can play: enabled, with an open context and with the
    sounds of [loadSounds] in its buffers. *)
Definition ready (am : t) : Prop :=
  enabled am = true
  /\ (exists ctx, audioContext am = Some ctx /\ closed ctx = false)
  /\ (forall soundName, soundName ∈ soundEffects -> soundName ∈ soundBuffers am).

(** No source was started. *)
Definition silent (evs : list event) : Prop := existsb is_started evs = false.

(** [handleObjectClick] of the stream component, without the caller's
    [onObjectClick]: the click sound, then the sound of the object. *)
Definition handleObjectClick {lc : LowerCase} (am : t)
    (detection : InteractiveCameraStream.ClickableDetection)
  : outcome (list event) :=
  let click := playUISound am ui_click in
  let d := InteractiveCameraStream.source detection in
  match class_name d with
  | Some c =>
      if truthy_string c then
        match playObjectDetectionSound am (a_string c)
                (a_number (or_else truthy_number (confidence d) (Num (5 # 10)))) with
        | Return evs => Return (click ++ evs)
        | Throw => Throw
        end
      else Return click
  | None => Return click
  end.

End AudioApi.

(* ===================================================================== *)
(** ** The sound trigger over successive renders                          *)
(* ===================================================================== *)

Module Renders.
Import Js InteractiveCameraStream.

(** One call of the trigger: class, confidence, reading of [Date.now()]. *)
Record call : Type := mkCall {
  call_class : string;
  call_confidence : number;
  call_time : Z
}.

(** Every call is made by the closure of a fresh render: the update queued
    by the call before it has been committed. *)
Fixpoint one_call_per_render (enableSoundAlerts : bool)
    (lastSoundTime : gmap string Z) (calls : list call) : list sound :=
  match calls with
  | [] => []
  | c :: rest =>
      let played :=
        option_list (playDetectionSound enableSoundAlerts lastSoundTime
                       (call_class c) (call_confidence c) (call_time c)) in
      played ++ one_call_per_render enableSoundAlerts
                  (commit lastSoundTime played) rest
  end.

(** The last time a class was played according to the ledger, [0] if it
    has no entry. *)
Definition last_played (lastSoundTime : gmap string Z) (class : string) : Z :=
  default 0%Z (lastSoundTime !! class).

(** A sound that passed the cooldown of the ledger [lastSoundTime]. *)
Definition passed (lastSoundTime : gmap string Z) (s : sound) : Prop :=
  (SOUND_COOLDOWN < at_time s - last_played lastSoundTime (objectType s))%Z.

(** The times at which a class was played. *)
Definition times_of (class : string) (played : list sound) : list Z :=
  map at_time (List.filter (fun s => String.eqb (objectType s) class) played).

(** Each time is more than the cooldown after the one before it. *)
Fixpoint spaced (last : Z) (times : list Z) : Prop :=
  match times with
  | [] => True
  | t :: rest => (SOUND_COOLDOWN < t - last)%Z /\ spaced t rest
  end.

(** A string without the separator of the item identifiers. *)
Fixpoint dashless (s : string) : bool :=
  match s with
  | EmptyString => true
  | String c r => negb (Ascii.eqb c (Ascii.ascii_of_nat 45)) && dashless r
  end.

End Renders.

(* ===================================================================== *)
(** ** The add-camera form ([AddCameraModal])                             *)
(* ===================================================================== *)

Module AddCameraModal.
Import Js CameraContext.

Record FormData : Type := mkForm {
  name : string;
  ip_address : string;
  port : number
}.

Definition empty_form : FormData := mkForm "" "" (Num 8080).

Definition code (c : Ascii.ascii) : nat := Ascii.nat_of_ascii c.

(** The characters that [trim] removes: the white space and the line
    terminators of ECMAScript.  In ASCII these are the codes 9 to 13 and
    32; the others are U+00A0, U+1680, U+2000 to U+200A, U+2028, U+2029,
    U+202F, U+205F, U+3000 and U+FEFF, of two or three bytes each. *)
Definition is_space (c : Ascii.ascii) : bool :=
  ((9 <=? code c) && (code c <=? 13) || (code c =? 32))%nat.

Definition is_space2 (c1 c2 : Ascii.ascii) : bool :=
  ((code c1 =? 194) && (code c2 =? 160))%nat.

Definition is_space3 (c1 c2 c3 : Ascii.ascii) : bool :=
  ((code c1 =? 225) && (code c2 =? 154) && (code c3 =? 128)
   || (code c1 =? 226) && (code c2 =? 128)
      && ((128 <=? code c3) && (code c3 <=? 138)
          || (code c3 =? 168) || (code c3 =? 169) || (code c3 =? 175))
   || (code c1 =? 226) && (code c2 =? 129) && (code c3 =? 159)
   || (code c1 =? 227) && (code c2 =? 128) && (code c3 =? 128)
   || (code c1 =? 239) && (code c2 =? 187) && (code c3 =? 191))%nat.

(** [!s.trim()]: nothing is left when every character is removed. *)
Fixpoint blank (s : string) : bool :=
  match s with
  | EmptyString => true
  | String c1 r1 =>
      if is_space c1 then blank r1
      else
        match r1 with
        | String c2 r2 =>
            if is_space2 c1 c2 then blank r2
            else
              match r2 with
              | String c3 r3 => if is_space3 c1 c2 c3 then blank r3 else false
              | EmptyString => false
              end
        | EmptyString => false
        end
  end.

(** [\d]: the ten ASCII digits. *)
Definition is_digit (c : Ascii.ascii) : bool :=
  ((48 <=? code c) && (code c <=? 57))%nat.

(** The longest run of digits at the front of [s], and what follows it. *)
Fixpoint digits_run (s : string) : nat * string :=
  match s with
  | EmptyString => (O, s)
  | String c r =>
      if is_digit c then
        let '(n, rest) := digits_run r in (S n, rest)
      else (O, s)
  end.

(** [\d{1,3}]: what is followed by a dot or by the end is not a digit, so
    the run that matches is the longest one. *)
Definition group (s : string) : option string :=
  let '(n, rest) := digits_run s in
  if ((1 <=? n) && (n <=? 3))%nat then Some rest else None.

(** [\.] *)
Definition dot (s : string) : option string :=
  match s with
  | String c r => if (code c =? 46)%nat then Some r else None
  | EmptyString => None
  end.

(** [/^(\d{1,3}\.){3}\d{1,3}$/.test(s)] *)
Definition andThen (o : option string) (f : string -> option string)
  : option string :=
  match o with Some rest => f rest | None => None end.

Definition ipRegex_test (s : string) : bool :=
  match foldl andThen (group s) [dot; group; dot; group; dot; group] with
  | Some EmptyString => true
  | _ => false
  end.

(** The checks of [handleSubmit] that come before the request. *)
Inductive checked : Type :=
| setError (message : string)
| request (formData : FormData).

Definition check (formData : FormData) : checked :=
  if blank (name formData) || blank (ip_address formData) then
    setError "Please fill in all required fields"
  else if negb (ipRegex_test (ip_address formData)) then
    setError "Please enter a valid IP address"
  else if gt (Num 1) (port formData) || gt (port formData) (Num 65535) then
    setError "Port must be between 1 and 65535"
  else request formData.

(** How [addCamera] can fail, as far as the [catch] tells it apart. *)
Inductive failure : Type :=
| ECONNABORTED
| with_detail (detail : string)
| other_failure.

Record form_state : Type := mkFormState {
  formData_after : FormData;
  error_text : string;
  closed : bool;
  requested : option FormData
}.

(** [handleSubmit]; [reply] is what [addCamera] does if it is called. *)
Definition handleSubmit (reply : option failure) (formData : FormData) : form_state :=
  match check formData with
  | setError message => mkFormState formData message false None
  | request data =>
      match reply with
      | None => mkFormState empty_form "" true (Some data)
      | Some ECONNABORTED =>
          mkFormState formData "The request timed out. Please try again."
                      false (Some data)
      | Some (with_detail detail) =>
          if truthy_string detail
          then mkFormState formData ("Error: " +:+ detail) false (Some data)
          else mkFormState formData
                 "Failed to add camera. Please check the connection details."
                 false (Some data)
      | Some other_failure =>
          mkFormState formData
            "Failed to add camera. Please check the connection details."
            false (Some data)
      end
  end.

(** A group of one to three digits. *)
Fixpoint all_digits (s : string) : bool :=
  match s with
  | EmptyString => true
  | String c r => is_digit c && all_digits r
  end.

(** What follows a group is the end or a character that is no digit. *)
Definition no_digit_ahead (s : string) : Prop :=
  match s with
  | EmptyString => True
  | String c _ => is_digit c = false
  end.

Definition octet (s : string) : Prop :=
  all_digits s = true /\ (1 <= String.length s <= 3)%nat.

End AddCameraModal.

(* ===================================================================== *)
(** * Properties of the state store                                       *)
(* ===================================================================== *)

Section StoreFacts.
Import Js Types CameraContext.

Implicit Types (st : Store) (m : WebSocketMessage) (cam now : string).

(** The reducer on each message type, as rewriting rules. *)
Lemma handle_frame now m st :
  type m = "frame" ->
  handleSocketMessage now m st =
    mkStore
      (<[key_of m :=
           mkStatus (Some true) (isDetecting (spread (cameraStatuses st) (key_of m)))
                    (Some (stamp now m)) (error (spread (cameraStatuses st) (key_of m)))]>
         (cameraStatuses st))
      (detectionResults st)
      (<[key_of m := frame m]> (cameraStreams st))
      (objectCounts st).
Proof.
  intros Hty. unfold handleSocketMessage. rewrite Hty.
  rewrite decide_True by reflexivity. reflexivity.
Qed.

Lemma handle_detection now m st :
  type m = "detection" ->
  handleSocketMessage now m st =
    mkStore
      (<[key_of m :=
           mkStatus (isStreaming (spread (cameraStatuses st) (key_of m))) (Some true)
                    (Some (stamp now m)) (error (spread (cameraStatuses st) (key_of m)))]>
         (cameraStatuses st))
      (<[key_of m := m]> (detectionResults st))
      (cameraStreams st)
      (match object_counts m with
       | Some oc => <[key_of m := oc]> (objectCounts st)
       | None => objectCounts st
       end).
Proof.
  intros Hty. unfold handleSocketMessage. rewrite Hty.
  rewrite decide_False by discriminate.
  rewrite decide_True by reflexivity. reflexivity.
Qed.

Lemma handle_detection_status now m st :
  type m = "detection_status" ->
  handleSocketMessage now m st =
    mkStore
      (<[key_of m :=
           mkStatus (isStreaming (spread (cameraStatuses st) (key_of m)))
                    (Some (or_else (fun b : bool => b) (enabled m) false))
                    (lastSeen (spread (cameraStatuses st) (key_of m)))
                    (error (spread (cameraStatuses st) (key_of m)))]>
         (cameraStatuses st))
      (detectionResults st) (cameraStreams st) (objectCounts st).
Proof.
  intros Hty. unfold handleSocketMessage. rewrite Hty.
  do 2 (rewrite decide_False by discriminate).
  rewrite decide_True by reflexivity. reflexivity.
Qed.

(** A [detection_status] message writes [isDetecting] and nothing but the
    status dictionary: the detection result and the counts of the camera
    stay as they were. *)
Lemma detection_status_touches_status_only now m st :
  type m = "detection_status" ->
  let st' := handleSocketMessage now m st in
  (isDetecting <$> cameraStatuses st' !! key_of m)
    = Some (Some (or_else (fun b : bool => b) (enabled m) false))
  /\ detectionResults st' = detectionResults st
  /\ objectCounts st' = objectCounts st
  /\ cameraStreams st' = cameraStreams st.
Proof.
  intros Hty st'. subst st'. rewrite (handle_detection_status _ _ _ Hty). simpl.
  rewrite lookup_insert_eq. auto.
Qed.

(** The sibling path: a resolved toggle-off deletes both entries. *)
Lemma toggle_off_clears cam st :
  let st' := store (toggleDetection Resolved cam false st) in
  detectionResults st' !! cam = None
  /\ objectCounts st' !! cam = None
  /\ (isDetecting <$> cameraStatuses st' !! cam) = Some (Some false).
Proof.
  simpl. rewrite !lookup_delete_eq, lookup_insert_eq. auto.
Qed.

(** A rejected command other than start leaves the whole store as it was. *)
Lemma rejected_stop_is_identity cam st :
  store (stopCamera Rejected cam st) = st /\ rethrown (stopCamera Rejected cam st) = true.
Proof. split; reflexivity. Qed.

Lemma rejected_toggle_is_identity cam b st :
  store (toggleDetection Rejected cam b st) = st
  /\ rethrown (toggleDetection Rejected cam b st) = true.
Proof. split; reflexivity. Qed.

(** The sibling path: a rejected start writes the [error] field. *)
Lemma rejected_start_records_error cam st :
  let st' := store (startCamera Rejected cam st) in
  (error <$> cameraStatuses st' !! cam) = Some (Some "Failed to start camera")
  /\ (isStreaming <$> cameraStatuses st' !! cam) = Some (Some false).
Proof. simpl. rewrite lookup_insert_eq. auto. Qed.

(** A resolved stop: flags off, error cleared, cached frame dropped,
    detection result and counts kept. *)
Lemma resolved_stop cam st :
  let st' := store (stopCamera Resolved cam st) in
  (isStreaming <$> cameraStatuses st' !! cam) = Some (Some false)
  /\ (isDetecting <$> cameraStatuses st' !! cam) = Some (Some false)
  /\ (error <$> cameraStatuses st' !! cam) = Some None
  /\ cameraStreams st' !! cam = None
  /\ detectionResults st' = detectionResults st
  /\ objectCounts st' = objectCounts st.
Proof. simpl. rewrite lookup_insert_eq, lookup_delete_eq. auto 10. Qed.

End StoreFacts.

Section StoreClaims.
Import Js Types CameraContext.

Implicit Types (st : Store) (m : WebSocketMessage) (cam now : string).

(** C1.  Processing a [detection_status] event with [enabled = false] sets
    the camera's [isDetecting] to false, but the reducer leaves the
    camera's detection result and object counts in place: evaluated on the
    store of the running scenario, both are still there after the event.
    (The command path [toggleDetection] deletes them; the event path does
    not.) *)
Theorem C1_status_off_keeps_detection_data :
  let st' := handleSocketMessage Scenario.now_iso Scenario.status_off_event
               Scenario.detecting in
  (isDetecting <$> cameraStatuses st' !! "cam-1") = Some (Some false)
  /\ detectionResults st' !! "cam-1" = Some Scenario.detection_event
  /\ objectCounts st' !! "cam-1" = Some {[ "person" := 1%Z ]}.
Proof.
  destruct (detection_status_touches_status_only Scenario.now_iso
              Scenario.status_off_event Scenario.detecting eq_refl)
    as (Hs & Hr & Hc & _).
  cbv zeta. rewrite Hr, Hc. split; [exact Hs|].
  split; vm_compute; reflexivity.
Qed.

(** C4.  A resolved stop sets [isStreaming] to false and deletes the cached
    frame, but keeps the camera's detection result; a rejected stop leaves
    [isStreaming] at its value before the command and writes nothing to
    the [error] field.  Evaluated on the store of the running scenario. *)
Theorem C4_stop_keeps_detections_and_records_no_error :
  let ok := store (stopCamera Resolved "cam-1" Scenario.detecting) in
  let ko := store (stopCamera Rejected "cam-1" Scenario.detecting) in
  ((isStreaming <$> cameraStatuses ok !! "cam-1") = Some (Some false)
   /\ cameraStreams ok !! "cam-1" = None
   /\ detectionResults ok !! "cam-1" = Some Scenario.detection_event)
  /\ ((isStreaming <$> cameraStatuses ko !! "cam-1") = Some (Some true)
      /\ (error <$> cameraStatuses ko !! "cam-1") = Some None).
Proof.
  cbv zeta.
  destruct (resolved_stop "cam-1" Scenario.detecting) as (H1 & _ & _ & H2 & H3 & _).
  rewrite H3.
  repeat split; try assumption; vm_compute; reflexivity.
Qed.

(** C7.  A rejected detection toggle leaves [isDetecting] at its value
    before the toggle, and it leaves the [error] field unwritten as well:
    the store is returned as it was.  Evaluated on the running scenario. *)
Theorem C7_rejected_toggle_records_no_error :
  let r := toggleDetection Rejected "cam-1" false Scenario.detecting in
  (isDetecting <$> cameraStatuses (store r) !! "cam-1") = Some (Some true)
  /\ (error <$> cameraStatuses (store r) !! "cam-1") = Some None
  /\ store r = Scenario.detecting
  /\ shown r = toast_error "Failed to toggle detection".
Proof. cbv zeta. repeat split; vm_compute; reflexivity. Qed.

(** C5, as stated, fails: a detection event that carries no [object_counts]
    leaves the camera's earlier counts where they were. *)
Lemma C5_counts_survive_bare_event :
  type Scenario.bare_detection_event = "detection"
  /\ objectCounts Scenario.detecting !! "cam-1" = Some {[ "person" := 1%Z ]}
  /\ objectCounts (handleSocketMessage Scenario.now_iso
                     Scenario.bare_detection_event Scenario.detecting) !! "cam-1"
     = Some {[ "person" := 1%Z ]}.
Proof. repeat split; vm_compute; reflexivity. Qed.

(** C5, amended.  A detection event that carries an [object_counts] value
    replaces the camera's counts by exactly that value, whatever the prior
    mapping was, so an entry of the prior mapping is found afterwards only
    if the event carries it; the counts of other cameras are untouched.
    An event without [object_counts] leaves all counts as they were. *)
Theorem C5_counts_replaced_when_carried now m st :
  type m = "detection" ->
  let st' := handleSocketMessage now m st in
  (forall oc, object_counts m = Some oc ->
     objectCounts st' !! key_of m = Some oc
     /\ (forall class n, oc !! class = None ->
           (objectCounts st' !! key_of m) ≫= (.!! class) <> Some n)
     /\ (forall cam, cam <> key_of m ->
           objectCounts st' !! cam = objectCounts st !! cam))
  /\ (object_counts m = None -> objectCounts st' = objectCounts st).
Proof.
  intros Hty st'. subst st'. rewrite (handle_detection _ _ _ Hty). simpl.
  split.
  - intros oc ->. rewrite lookup_insert_eq. split; [reflexivity|].
    split.
    + intros class n Hnone. simpl. rewrite Hnone. discriminate.
    + intros cam Hne. rewrite lookup_insert_ne by congruence. reflexivity.
  - intros ->. reflexivity.
Qed.

Lemma C5_counts_replaced_when_carried_witness :
  type Scenario.crowd_event = "detection"
  /\ objectCounts (handleSocketMessage Scenario.now_iso Scenario.crowd_event
                     Scenario.detecting) !! "cam-1"
     = Some {[ "person" := 2%Z ]}.
Proof.
  split; [reflexivity|].
  exact (proj1 (proj1 (C5_counts_replaced_when_carried Scenario.now_iso
                         Scenario.crowd_event Scenario.detecting eq_refl)
                      _ eq_refl)).
Defined.





End StoreClaims.

(* ===================================================================== *)
(** * Properties of the audio manager                                     *)
(* ===================================================================== *)

Section AudioFacts.
Import Js AudioManager AudioApi.

Implicit Types (am : t) (q : Q).

Lemma Qltb_true a b : Qltb a b = true <-> (a < b)%Q.
Proof.
  unfold Qltb. rewrite negb_true_iff.
  destruct (Qle_bool b a) eqn:E.
  - apply Qle_bool_iff in E. split; [discriminate|].
    intros Hlt. exfalso. exact (Qlt_not_le _ _ Hlt E).
  - split; [intros _|reflexivity].
    apply Qnot_le_lt. intros Hle. apply Qle_bool_iff in Hle. congruence.
Qed.

Lemma Qltb_false a b : Qltb a b = false <-> (b <= a)%Q.
Proof.
  unfold Qltb. rewrite negb_false_iff. apply Qle_bool_iff.
Qed.

(** Every cue of the table is a non-empty string, so [||] never replaces
    an own entry. *)
Lemma soundMap_values_truthy key cue :
  soundMap !! key = Some cue -> truthy_string cue = true.
Proof.
  revert key cue.
  assert (H : map_Forall (fun _ cue => truthy_string cue = true) soundMap).
  { apply map_Forall_to_list. vm_compute. repeat constructor. }
  exact H.
Qed.

Lemma get_or_soundMap key :
  key ∉ Object_prototype ->
  get_or soundMap key "click" = Str (default "click" (soundMap !! key)).
Proof.
  intros Hkey. unfold get_or, get.
  destruct (soundMap !! key) as [cue|] eqn:E; simpl.
  - rewrite (soundMap_values_truthy _ _ E). reflexivity.
  - rewrite bool_decide_eq_false_2 by exact Hkey. reflexivity.
Qed.










(** The clamp of [setMasterVolume] on every input but NaN. *)
Lemma setMasterVolume_clamps volume am :
  isNaN volume = false ->
  in_unit_interval (getMasterVolume (setMasterVolume volume am)).
Proof.
  destruct volume as [q| | |]; simpl; intros HN; try discriminate.
  - split.
    + apply Q.le_max_l.
    + apply Q.max_lub; [discriminate|apply Q.le_min_l].
  - split; discriminate.
  - split; discriminate.
Qed.

Lemma new_in_unit_interval : in_unit_interval (getMasterVolume new).
Proof. simpl. split; discriminate. Qed.

(** No other operation writes the field. *)
Lemma apply_masterVolume am o :
  masterVolume (apply am o) =
    match o with
    | op_setMasterVolume v => Math_max (Num 0) (Math_min (Num 1) v)
    | _ => masterVolume am
    end.
Proof.
  destruct o as [[|ctx|ctx]| | | |]; simpl; try reflexivity.
Qed.

Lemma run_in_unit_interval ops :
  Forall NaN_free ops -> in_unit_interval (getMasterVolume (run ops)).
Proof.
  unfold run, getMasterVolume.
  assert (G : forall am, in_unit_interval (masterVolume am) ->
                Forall NaN_free ops ->
                in_unit_interval (masterVolume (foldl apply am ops))).
  { induction ops as [|o ops IH]; intros am Ham Hall; simpl; [exact Ham|].
    apply Forall_cons in Hall as [Ho Hall]. apply IH; [|exact Hall].
    rewrite apply_masterVolume. destruct o; simpl in Ho |- *; try exact Ham.
    apply (setMasterVolume_clamps volume am Ho). }
  intros Hall. apply G; [apply new_in_unit_interval|exact Hall].
Qed.

(** C10.  The master volume starts at 0.7 and only [setMasterVolume] writes
    it, but [Math.max(0, Math.min(1, volume))] is NaN for a NaN argument:
    after [setMasterVolume(NaN)] the getter returns NaN, which is not in
    the closed interval from 0 to 1. *)
Theorem C10_master_volume_after_NaN :
  getMasterVolume new = Num (7 # 10)
  /\ getMasterVolume (run [op_setMasterVolume NaN]) = NaN
  /\ ~ in_unit_interval (getMasterVolume (run [op_setMasterVolume NaN])).
Proof.
  split; [reflexivity|]. split; [reflexivity|]. simpl. tauto.
Qed.

End AudioFacts.

(* ===================================================================== *)
(** * Properties of the interactive stream component                      *)
(* ===================================================================== *)

Section StreamFacts.
Import Js Types InteractiveCameraStream.

Lemma Qzero_false q : ~ (q == 0)%Q -> Qzero q = false.
Proof.
  intros Hq. unfold Qzero. destruct (Qeq_bool q 0) eqn:E; [|reflexivity].
  apply Qeq_bool_iff in E. contradiction.
Qed.

(** C2.  Let a detection have the bounding box [(x, y, w, h)] in an image
    of native size [(W, H)], with [W] and [H] not zero, and let the canvas
    be laid out at [(L, T)] with displayed size [(W', H')] inside a
    container laid out at [(L0, T0)].  Then the screen rectangle is
    computed, its width is [w * W' / W], its height is [h * H' / H], and
    its corner is [(x * W' / W, y * H' / H)] moved by [(L - L0, T - T0)].
    Numbers are exact here; the source computes in doubles. *)
Theorem C2_screen_rectangle (x y w h W H W' H' L T L0 T0 : Q)
    (x2 y2 cw ch cW cH : number) (d : Detection) (refs : Refs) :
  bbox d = Some (mkBBox (Num x) (Num y) x2 y2 (Num w) (Num h)) ->
  canvasRef refs = Some (mkCanvas cw ch (mkRect (Num L) (Num T) (Num W') (Num H'))) ->
  containerRef refs = Some (mkRect (Num L0) (Num T0) cW cH) ->
  ~ (W == 0)%Q -> ~ (H == 0)%Q ->
  exists r, calculateScreenCoordinates refs d (Num W) (Num H) = Some r
    /\ same (screenWidth r) (Num (w * W' / W))
    /\ same (screenHeight r) (Num (h * H' / H))
    /\ same (screenX r) (Num (x * W' / W + (L - L0)))
    /\ same (screenY r) (Num (y * H' / H + (T - T0))).
Proof.
  intros Hb Hc Hk HW HH. unfold calculateScreenCoordinates.
  rewrite Hb, Hc, Hk. simpl.
  rewrite (Qzero_false _ HW), (Qzero_false _ HH).
  eexists. split; [reflexivity|]. simpl.
  repeat split; field; assumption.
Qed.

Lemma C2_screen_rectangle_witness :
  exists r,
    calculateScreenCoordinates Scenario.refs Scenario.person (Num 640) (Num 480)
      = Some r
    /\ same (screenWidth r) (Num (100 * 320 / 640))
    /\ same (screenHeight r) (Num (250 * 240 / 480))
    /\ same (screenX r) (Num (100 * 320 / 640 + (10 - 0)))
    /\ same (screenY r) (Num (50 * 240 / 480 + (20 - 0))).
Proof.
  apply (C2_screen_rectangle 100 50 100 250 640 480 320 240 10 20 0 0
           (Num 200) (Num 300) (Num 640) (Num 480) (Num 400) (Num 300)
           Scenario.person Scenario.refs).
  - reflexivity.
  - reflexivity.
  - reflexivity.
  - discriminate.
  - discriminate.
Defined.

(** *** The cooldown, call by call *)

Lemma cooled_down_own lastSoundTime objectType t now :
  lastSoundTime !! objectType = Some t ->
  cooled_down lastSoundTime objectType now = (SOUND_COOLDOWN <? now - t)%Z.
Proof. intros H. unfold cooled_down, get. rewrite H. reflexivity. Qed.

(** When the updater queued by a call that played has been committed, a
    call for the same class no more than 1000 ms later is dropped ... *)
Lemma dropped_after_commit en lastSoundTime objectType c c' t1 t2 s :
  playDetectionSound en lastSoundTime objectType c t1 = Some s ->
  (t2 - t1 <= 1000)%Z ->
  playDetectionSound en (commit lastSoundTime [s]) objectType c' t2 = None.
Proof.
  unfold playDetectionSound. intros Hplay Hnear.
  destruct (negb en || negb (truthy_string objectType)); [discriminate|].
  destruct (cooled_down lastSoundTime objectType t1); [|discriminate].
  injection Hplay as <-. simpl.
  rewrite (cooled_down_own _ _ t1) by apply lookup_insert_eq.
  unfold SOUND_COOLDOWN. destruct (Z.ltb_spec 1000 (t2 - t1)); [lia|reflexivity].
Qed.

(** ... and a call more than 1000 ms later plays again. *)
Lemma plays_after_cooldown en lastSoundTime objectType c c' t1 t2 s :
  playDetectionSound en lastSoundTime objectType c t1 = Some s ->
  (1000 < t2 - t1)%Z ->
  exists s', playDetectionSound en (commit lastSoundTime [s]) objectType c' t2 = Some s'
             /\ InteractiveCameraStream.objectType s' = objectType
             /\ at_time s' = t2.
Proof.
  unfold playDetectionSound. intros Hplay Hfar.
  destruct (negb en || negb (truthy_string objectType)); [discriminate|].
  destruct (cooled_down lastSoundTime objectType t1); [|discriminate].
  injection Hplay as <-. simpl.
  rewrite (cooled_down_own _ _ t1) by apply lookup_insert_eq.
  unfold SOUND_COOLDOWN. destruct (Z.ltb_spec 1000 (t2 - t1)); [|lia].
  eexists. split; [reflexivity|]. split; reflexivity.
Qed.

(** C3.  Within one run of the effect every call of the sound trigger
    reads the [lastSoundTime] captured by the render that scheduled the
    run; the updates queued by earlier calls are not in it.  With two
    people in one detection event, the two calls for ["person"] are two
    milliseconds apart and both play. *)
Theorem C3_two_calls_in_one_pass_both_play :
  exists p,
    clickable_effect "cam-1" true true ∅ Scenario.refs Scenario.clock
      (Some Scenario.crowd_event) = Some p
    /\ map objectType (sounds p) = ["person"; "person"]
    /\ map at_time (sounds p) = [1714557600001; 1714557600003]%Z
    /\ is_Some (playDetectionSound true ∅ "person" (Num (92 # 100)) 1714557600001)
    /\ is_Some (playDetectionSound true ∅ "person" (Num (92 # 100)) 1714557600003).
Proof.
  eexists. split; [vm_compute; reflexivity|].
  repeat split; try reflexivity; vm_compute; eauto.
Qed.

(** *** Skipping incomplete detections *)





Section Clickable.
Variables (cameraId : string) (enableSoundAlerts : bool).
Variables (lastSoundTime : gmap string Z) (refs : Refs) (clock : nat -> Z).

Local Abbreviation body := (forEach_body cameraId enableSoundAlerts lastSoundTime refs clock).







End Clickable.

Section Painting.
Context {lc : LowerCase}.
Variables (enableObjectClick : bool) (measureText : text -> number).




End Painting.




End StreamFacts.

(* ===================================================================== *)
(** * Further properties of the state store                               *)
(* ===================================================================== *)

Section StoreAlgebra.
Import Js Types CameraContext.

Implicit Types (st : Store) (m : WebSocketMessage) (cam now : string).

Lemma store_eq st st' :
  cameraStatuses st = cameraStatuses st' ->
  detectionResults st = detectionResults st' ->
  cameraStreams st = cameraStreams st' ->
  objectCounts st = objectCounts st' ->
  st = st'.
Proof. destruct st, st'; simpl; congruence. Qed.

Lemma spread_insert_ne (statuses : gmap string CameraRuntimeState) k k' s :
  k <> k' -> spread (<[k := s]> statuses) k' = spread statuses k'.
Proof. intros Hne. unfold spread. rewrite lookup_insert_ne by exact Hne. reflexivity. Qed.

Lemma spread_insert_eq (statuses : gmap string CameraRuntimeState) k s :
  spread (<[k := s]> statuses) k = s.
Proof. unfold spread. rewrite lookup_insert_eq. reflexivity. Qed.

(** The four cases of the [switch]. *)
Lemma type_cases m :
  type m = "frame" \/ type m = "detection" \/ type m = "detection_status"
  \/ (forall now st, handleSocketMessage now m st = st).
Proof.
  destruct (decide (type m = "frame")) as [|H1]; [auto|].
  destruct (decide (type m = "detection")) as [|H2]; [auto|].
  destruct (decide (type m = "detection_status")) as [|H3]; [auto|].
  right. right. right. intros now st. unfold handleSocketMessage.
  rewrite !decide_False by assumption. reflexivity.
Qed.

Local Ltac by_type m H :=
  destruct (type_cases m) as [H|[H|[H|H]]].

Local Ltac reduce_handle :=
  repeat match goal with
  | H : type ?m = "frame" |- context [handleSocketMessage ?n ?m ?s] =>
      rewrite (handle_frame n m s H)
  | H : type ?m = "detection" |- context [handleSocketMessage ?n ?m ?s] =>
      rewrite (handle_detection n m s H)
  | H : type ?m = "detection_status" |- context [handleSocketMessage ?n ?m ?s] =>
      rewrite (handle_detection_status n m s H)
  | H : forall now st, handleSocketMessage now ?m st = st
      |- context [handleSocketMessage ?n ?m ?s] =>
      rewrite (H n s)
  end.

Lemma event_local_lookups now m st cam :
  cam <> key_of m ->
  cameraStatuses (handleSocketMessage now m st) !! cam = cameraStatuses st !! cam
  /\ detectionResults (handleSocketMessage now m st) !! cam = detectionResults st !! cam
  /\ cameraStreams (handleSocketMessage now m st) !! cam = cameraStreams st !! cam
  /\ objectCounts (handleSocketMessage now m st) !! cam = objectCounts st !! cam.
Proof.
  intros Hne. by_type m H; reduce_handle; simpl;
    try destruct (object_counts m);
    rewrite ?lookup_insert_ne by congruence; auto.
Qed.

(** An event leaves every other camera's entries, in all four
    dictionaries, as they were. *)
Theorem event_is_local now m st cam :
  cam <> key_of m ->
  let st' := handleSocketMessage now m st in
  cameraStatuses st' !! cam = cameraStatuses st !! cam
  /\ detectionResults st' !! cam = detectionResults st !! cam
  /\ cameraStreams st' !! cam = cameraStreams st !! cam
  /\ objectCounts st' !! cam = objectCounts st !! cam.
Proof. intros Hne. exact (event_local_lookups now m st cam Hne). Qed.

Lemma event_is_local_witness :
  cameraStatuses (handleSocketMessage Scenario.now_iso Scenario.detection_event
                    empty_store) !! "cam-2" = None.
Proof.
  exact (proj1 (event_is_local Scenario.now_iso Scenario.detection_event
                  empty_store "cam-2" ltac:(discriminate))).
Defined.

(** Events addressed to different cameras commute: the store after both
    does not depend on which of the two arrived first. *)
Theorem events_of_two_cameras_commute now1 now2 m1 m2 st :
  key_of m1 <> key_of m2 ->
  handleSocketMessage now1 m1 (handleSocketMessage now2 m2 st)
  = handleSocketMessage now2 m2 (handleSocketMessage now1 m1 st).
Proof.
  intros Hne.
  by_type m1 H1; by_type m2 H2; reduce_handle; try reflexivity;
    apply store_eq; simpl;
    rewrite ?spread_insert_ne by congruence;
    try destruct (object_counts m1); try destruct (object_counts m2);
    try reflexivity;
    apply insert_insert_ne; congruence.
Qed.

Lemma events_of_two_cameras_commute_witness :
  let other := mkMessage "frame" (Some "cam-2") (Some "AAAA") None None None None in
  handleSocketMessage "t1" Scenario.detection_event
    (handleSocketMessage "t2" other empty_store)
  = handleSocketMessage "t2" other
      (handleSocketMessage "t1" Scenario.detection_event empty_store).
Proof.
  apply events_of_two_cameras_commute. discriminate.
Defined.

(** Delivering an event a second time changes nothing, provided the
    time stamp written is the same (the event carries one, or the clock
    reads the same). *)
Theorem redelivery_changes_nothing now1 now2 m st :
  stamp now2 m = stamp now1 m ->
  handleSocketMessage now2 m (handleSocketMessage now1 m st)
  = handleSocketMessage now1 m st.
Proof.
  intros Hstamp.
  by_type m H; reduce_handle; try reflexivity;
    apply store_eq; simpl;
    rewrite ?spread_insert_eq, ?Hstamp; simpl;
    try destruct (object_counts m);
    rewrite ?insert_insert_eq; reflexivity.
Qed.

Lemma redelivery_changes_nothing_witness :
  handleSocketMessage "later" Scenario.frame_event
    (handleSocketMessage "sooner" Scenario.frame_event Scenario.detecting)
  = handleSocketMessage "sooner" Scenario.frame_event Scenario.detecting.
Proof.
  apply redelivery_changes_nothing. reflexivity.
Defined.

End StoreAlgebra.

Section StoreAndViews.
Import Js Types CameraContext Views.

Implicit Types (st : Store) (m : WebSocketMessage) (cam now : string).

Lemma get_insert_eq {A} (obj : gmap string A) k v : get (<[k := v]> obj) k = Own v.
Proof. unfold get. rewrite lookup_insert_eq. reflexivity. Qed.

Lemma get_insert_ne {A} (obj : gmap string A) k k' v :
  k <> k' -> get (<[k := v]> obj) k' = get obj k'.
Proof. intros H. unfold get. rewrite lookup_insert_ne by exact H. reflexivity. Qed.

Lemma get_not_own {A} (obj : gmap string A) k :
  obj !! k = None -> forall v, get obj k <> Own v.
Proof. intros H v. unfold get. rewrite H. case_bool_decide; discriminate. Qed.

Lemma sum_counts_empty : sum_counts ∅ = 0%Z.
Proof. unfold sum_counts. apply map_fold_empty. Qed.

Lemma currentObjectCounts_none st cam :
  objectCounts st !! cam = None -> currentObjectCounts st cam = ∅.
Proof.
  intros H. unfold currentObjectCounts, get. rewrite H.
  case_bool_decide; reflexivity.
Qed.

(** What the tile of a camera shows along its life: "Connecting" after a
    resolved start while no frame is cached, the canvas after a frame
    event that carries an image and "Connecting" after one that carries
    none, the offline placeholder after a resolved stop and after a
    rejected start. *)
Theorem tile_follows_the_commands now m cam st :
  (has_stream st cam = false ->
     CameraStream (store (startCamera Resolved cam st)) cam = Connecting)
  /\ (frame_for cam m ->
        CameraStream (handleSocketMessage now m st) cam
        = if truthy truthy_string (frame m) then LiveCanvas else Connecting)
  /\ CameraStream (store (stopCamera Resolved cam st)) cam = CameraOffline
  /\ CameraStream (store (startCamera Rejected cam st)) cam = CameraOffline.
Proof.
  repeat split.
  - intros Hno. unfold CameraStream, streaming, status_of, has_stream in *. simpl.
    rewrite get_insert_eq. simpl. rewrite Hno. reflexivity.
  - intros [Hty Hid]. rewrite (handle_frame _ _ _ Hty).
    unfold CameraStream, streaming, status_of, has_stream, key_of. rewrite Hid. simpl.
    rewrite !get_insert_eq. simpl. destruct (truthy truthy_string (frame m)); reflexivity.
  - unfold CameraStream, streaming, status_of. simpl. rewrite get_insert_eq. reflexivity.
  - unfold CameraStream, streaming, status_of. simpl. rewrite get_insert_eq. reflexivity.
Qed.

Lemma tile_follows_the_commands_witness :
  CameraStream (store (startCamera Resolved "cam-1" empty_store)) "cam-1" = Connecting
  /\ CameraStream (handleSocketMessage Scenario.now_iso Scenario.frame_event
                     empty_store) "cam-1" = LiveCanvas.
Proof.
  destruct (tile_follows_the_commands Scenario.now_iso Scenario.frame_event
              "cam-1" empty_store) as (H1 & H2 & _).
  split; [apply H1; reflexivity|].
  exact (H2 (conj eq_refl eq_refl)).
Defined.

(** Turning detection off and on again (both acknowledged) leaves no
    detection result and no counts for the camera: the total shown for it
    is zero and the count overlay is hidden until a new event arrives. *)
Theorem reenabling_detection_reveals_nothing cam created st :
  let off := store (toggleDetection Resolved cam false st) in
  let on := store (toggleDetection Resolved cam true off) in
  detectionResults on !! cam = None
  /\ objectCounts on !! cam = None
  /\ (isDetecting <$> cameraStatuses on !! cam) = Some (Some true)
  /\ totalObjects on cam = 0%Z
  /\ shows_object_count on cam created = false.
Proof.
  cbv zeta.
  set (on := store (toggleDetection Resolved cam true
                      (store (toggleDetection Resolved cam false st)))).
  assert (Hc : objectCounts on !! cam = None) by (subst on; simpl; apply lookup_delete_eq).
  repeat split.
  - subst on. simpl. apply lookup_delete_eq.
  - exact Hc.
  - subst on. simpl. rewrite lookup_insert_eq. reflexivity.
  - unfold totalObjects. rewrite (currentObjectCounts_none _ _ Hc). apply sum_counts_empty.
  - unfold shows_object_count, totalObjects.
    rewrite (currentObjectCounts_none _ _ Hc), sum_counts_empty.
    apply andb_false_r.
Qed.

(** Two acknowledged clicks on the card's detection button bring the
    detecting flag back to what the card showed before, and whichever way
    round the two toggles went, the camera's detection result and counts
    are gone afterwards. *)
Theorem two_toggle_clicks cam created st :
  let once := handleToggleDetection Resolved cam created st in
  let twice := handleToggleDetection Resolved cam created once in
  flag (isDetecting (status_or_default twice cam created))
    = flag (isDetecting (status_or_default st cam created))
  /\ flag (isDetecting (status_or_default once cam created))
     = negb (flag (isDetecting (status_or_default st cam created)))
  /\ detectionResults twice !! cam = None
  /\ objectCounts twice !! cam = None.
Proof.
  cbv zeta.
  set (b := flag (isDetecting (status_or_default st cam created))).
  assert (H1 : flag (isDetecting (status_or_default
                 (handleToggleDetection Resolved cam created st) cam created)) = negb b).
  { unfold handleToggleDetection. fold b.
    unfold status_or_default, status_of. destruct b; simpl;
      rewrite get_insert_eq; reflexivity. }
  split; [|split; [exact H1|]].
  - unfold handleToggleDetection at 1. rewrite H1.
    unfold status_or_default at 1, status_of.
    destruct b; simpl; rewrite get_insert_eq; reflexivity.
  - unfold handleToggleDetection at 1 3. rewrite H1.
    unfold handleToggleDetection. fold b.
    destruct b; simpl; rewrite ?lookup_delete_eq; auto.
Qed.

End StoreAndViews.

Section ProviderFacts.
Import Js Types CameraContext CameraProvider Views.

Implicit Types (s : State) (cameraId cam : string).

(** A resolved delete removes the camera from the list and from all four
    dictionaries and touches no other camera; a rejected delete returns
    the state as it was and rethrows. *)
Theorem delete_purges_one_camera cameraId s :
  let r := deleteCamera Resolved cameraId s in
  (forall c, In c (cameras (after r)) <-> In c (cameras s) /\ id c <> cameraId)
  /\ (cameraStatuses (dicts (after r)) !! cameraId = None
      /\ detectionResults (dicts (after r)) !! cameraId = None
      /\ cameraStreams (dicts (after r)) !! cameraId = None
      /\ objectCounts (dicts (after r)) !! cameraId = None)
  /\ (forall cam, cam <> cameraId ->
        cameraStatuses (dicts (after r)) !! cam = cameraStatuses (dicts s) !! cam
        /\ detectionResults (dicts (after r)) !! cam = detectionResults (dicts s) !! cam
        /\ cameraStreams (dicts (after r)) !! cam = cameraStreams (dicts s) !! cam
        /\ objectCounts (dicts (after r)) !! cam = objectCounts (dicts s) !! cam)
  /\ after (deleteCamera Rejected cameraId s) = s
  /\ rethrown (deleteCamera Rejected cameraId s) = true.
Proof.
  cbv zeta. simpl. repeat split; try apply lookup_delete_eq;
    try (rewrite lookup_delete_ne by congruence; reflexivity).
  - apply filter_In in H. tauto.
  - apply filter_In in H as [_ H]. apply negb_true_iff in H.
    intros Heq. rewrite Heq, String.eqb_refl in H. discriminate.
  - intros [Hin Hne]. apply filter_In. split; [exact Hin|].
    apply negb_true_iff. apply String.eqb_neq. exact Hne.
Qed.

Lemma delete_purges_one_camera_witness :
  let s := mkState [] Scenario.detecting false in
  cameraStatuses (dicts (after (deleteCamera Resolved "cam-1" s))) !! "cam-2"
  = cameraStatuses (dicts s) !! "cam-2".
Proof.
  cbv zeta.
  destruct (delete_purges_one_camera "cam-1" (mkState [] Scenario.detecting false))
    as (_ & _ & Hother & _).
  exact (proj1 (Hother "cam-2" ltac:(discriminate))).
Defined.

(** The status dictionary built from a camera list. *)
Lemma initial_statuses_snoc l c :
  initial_statuses (l ++ [c]) = assign (initial_statuses l) (id c) (initial_status c).
Proof. unfold initial_statuses. rewrite foldl_app. reflexivity. Qed.

Lemma initial_statuses_sound l : forall k v,
  initial_statuses l !! k = Some v ->
  exists c, In c l /\ id c = k /\ v = initial_status c.
Proof.
  induction l as [|c l IH] using rev_ind; intros k v Hk.
  - discriminate.
  - rewrite initial_statuses_snoc in Hk. unfold assign in Hk.
    destruct (String.eqb (id c) "__proto__").
    + destruct (IH _ _ Hk) as (c' & Hin & Hid & Hv).
      exists c'. rewrite in_app_iff. auto.
    + destruct (decide (id c = k)) as [<-|Hne].
      * rewrite lookup_insert_eq in Hk. injection Hk as <-.
        exists c. rewrite in_app_iff. simpl. auto.
      * rewrite lookup_insert_ne in Hk by exact Hne.
        destruct (IH _ _ Hk) as (c' & Hin & Hid & Hv).
        exists c'. rewrite in_app_iff. auto.
Qed.

Lemma initial_statuses_complete l : forall c,
  In c l -> id c <> "__proto__" -> is_Some (initial_statuses l !! id c).
Proof.
  induction l as [|c0 l IH] using rev_ind; intros c Hin Hproto.
  - destruct Hin.
  - rewrite initial_statuses_snoc. unfold assign.
    destruct (String.eqb (id c0) "__proto__") eqn:E0.
    + apply in_app_iff in Hin as [Hin|[<-|[]]]; [apply IH; assumption|].
      apply String.eqb_eq in E0. contradiction.
    + destruct (decide (id c0 = id c)) as [->|Hne].
      * rewrite lookup_insert_eq. eauto.
      * rewrite lookup_insert_ne by exact Hne.
        apply in_app_iff in Hin as [Hin|[<-|[]]]; [apply IH; assumption|].
        contradiction.
Qed.

(** A resolved refresh replaces the list and rebuilds the status
    dictionary from it: its keys are the listed identifiers, every entry
    says "not streaming, not detecting, no error", so the header is not
    live and every tile shows the offline placeholder, while the cached
    frames, detection results and counts stay as they were.  A rejected
    refresh keeps list and dictionaries and does not rethrow.  Either way
    the loading flag ends up off. *)
Theorem refresh_resets_every_status cameraList s :
  let r := refreshCameras (resolves cameraList) s in
  let d := dicts (after r) in
  cameras (after r) = cameraList
  /\ (forall k v, cameraStatuses d !! k = Some v ->
        exists c, In c cameraList /\ id c = k /\ v = initial_status c)
  /\ (forall c, In c cameraList -> id c <> "__proto__" ->
        is_Some (cameraStatuses d !! id c))
  /\ isLive d = false
  /\ (forall cam, CameraStream d cam = CameraOffline)
  /\ (detectionResults d = detectionResults (dicts s)
      /\ cameraStreams d = cameraStreams (dicts s)
      /\ objectCounts d = objectCounts (dicts s))
  /\ isLoading (after r) = false
  /\ after (refreshCameras rejects s) = mkState (cameras s) (dicts s) false
  /\ rethrown (refreshCameras rejects s) = false.
Proof.
  cbv zeta. simpl. repeat split.
  - apply initial_statuses_sound.
  - apply initial_statuses_complete.
  - unfold isLive. simpl. apply bool_decide_eq_false_2.
    intros (k & v & Hk & Hlive).
    destruct (initial_statuses_sound _ _ _ Hk) as (c & _ & _ & ->).
    discriminate.
  - intros cam. unfold CameraStream, streaming, status_of, get. simpl.
    destruct (initial_statuses cameraList !! cam) as [v|] eqn:Hk.
    + destruct (initial_statuses_sound _ _ _ Hk) as (c & _ & _ & ->). reflexivity.
    + case_bool_decide; reflexivity.
Qed.

Lemma refresh_resets_every_status_witness :
  let camera := mkCamera "cam-9" "Porch" "192.168.1.20" (Num 8080) true
                         "2024-05-01T09:00:00Z" None in
  is_Some (cameraStatuses
             (dicts (after (refreshCameras (resolves [camera])
                              (mkState [] Scenario.detecting true)))) !! "cam-9").
Proof.
  cbv zeta.
  destruct (refresh_resets_every_status
              [mkCamera "cam-9" "Porch" "192.168.1.20" (Num 8080) true
                        "2024-05-01T09:00:00Z" None]
              (mkState [] Scenario.detecting true)) as (_ & _ & Hkeys & _).
  apply (Hkeys (mkCamera "cam-9" "Porch" "192.168.1.20" (Num 8080) true
                         "2024-05-01T09:00:00Z" None)).
  - left. reflexivity.
  - discriminate.
Defined.

End ProviderFacts.

Section HeaderAndDashboard.
Import Js Types CameraContext Views.

Implicit Types (st : Store) (m : WebSocketMessage) (cam now : string).

(** The header's "live" badge is on exactly when some camera's entry has
    [isStreaming] or [isDetecting] set to true; so every frame event and
    every detection event turns it on. *)
Theorem live_after_frame_or_detection now m st :
  (isLive st = true <->
     exists cam v, cameraStatuses st !! cam = Some v
       /\ (isStreaming v = Some true \/ isDetecting v = Some true))
  /\ (type m = "frame" \/ type m = "detection" ->
        isLive (handleSocketMessage now m st) = true).
Proof.
  assert (Hiff : forall st0, isLive st0 = true <->
     exists cam v, cameraStatuses st0 !! cam = Some v
       /\ (isStreaming v = Some true \/ isDetecting v = Some true)).
  { intros st0. unfold isLive. rewrite bool_decide_eq_true. unfold map_Exists.
    split; intros (cam & v & Hk & Hv); exists cam, v; (split; [exact Hk|]).
    - apply orb_true_iff in Hv. unfold flag, truthy in Hv.
      destruct (isStreaming v) as [[]|], (isDetecting v) as [[]|]; intuition discriminate.
    - apply orb_true_iff. unfold flag, truthy.
      destruct Hv as [-> | ->]; auto. }
  split; [apply Hiff|].
  intros Hty. apply Hiff. exists (key_of m).
  destruct Hty as [Hty|Hty].
  - rewrite (handle_frame _ _ _ Hty). simpl. rewrite lookup_insert_eq. eauto.
  - rewrite (handle_detection _ _ _ Hty). simpl. rewrite lookup_insert_eq. eauto.
Qed.

Lemma live_after_frame_or_detection_witness :
  isLive (handleSocketMessage Scenario.now_iso Scenario.frame_event empty_store) = true.
Proof.
  apply (proj2 (live_after_frame_or_detection Scenario.now_iso Scenario.frame_event
                  empty_store)).
  left. reflexivity.
Defined.

(** Sums over a counts dictionary and over the dictionary of all cameras. *)
Lemma sum_counts_insert (counts : ObjectCount) k v :
  counts !! k = None -> sum_counts (<[k := v]> counts) = (sum_counts counts + v)%Z.
Proof.
  intros H. unfold sum_counts. rewrite map_fold_insert_L; [reflexivity| |exact H].
  intros. lia.
Qed.

Lemma all_counts_insert_fresh (dict : gmap string ObjectCount) k counts :
  dict !! k = None -> all_counts (<[k := counts]> dict) = (all_counts dict + sum_counts counts)%Z.
Proof.
  intros H. unfold all_counts. rewrite map_fold_insert_L; [reflexivity| |exact H].
  intros. lia.
Qed.

Lemma all_counts_delete (dict : gmap string ObjectCount) k :
  all_counts (delete k dict)
  = (all_counts dict - sum_counts (default ∅ (dict !! k)))%Z.
Proof.
  destruct (dict !! k) as [old|] eqn:Hk; simpl.
  - unfold all_counts at 2.
    rewrite (map_fold_delete_L _ _ k old dict); [fold (all_counts (delete k dict)); lia| |exact Hk].
    intros. lia.
  - rewrite delete_id by exact Hk. rewrite sum_counts_empty. lia.
Qed.

Lemma all_counts_insert (dict : gmap string ObjectCount) k counts :
  all_counts (<[k := counts]> dict)
  = (all_counts dict - sum_counts (default ∅ (dict !! k)) + sum_counts counts)%Z.
Proof.
  rewrite <- insert_delete_eq.
  rewrite all_counts_insert_fresh by apply lookup_delete_eq.
  rewrite all_counts_delete. reflexivity.
Qed.

(** The dashboard's grand total moves with the events and commands: a
    detection event that carries counts replaces the camera's share of the
    total by the sum of the new counts, a resolved toggle-off removes the
    camera's share, and the card's per-camera total after the event is the
    sum of the counts it carried. *)
Theorem dashboard_total_follows_the_counts now m counts cam st :
  (type m = "detection" -> object_counts m = Some counts ->
     totalDetections (handleSocketMessage now m st)
     = (totalDetections st
        - sum_counts (default ∅ (objectCounts st !! key_of m))
        + sum_counts counts)%Z
     /\ totalObjects (handleSocketMessage now m st) (key_of m) = sum_counts counts)
  /\ totalDetections (store (toggleDetection Resolved cam false st))
     = (totalDetections st - sum_counts (default ∅ (objectCounts st !! cam)))%Z.
Proof.
  split.
  - intros Hty Hoc. rewrite (handle_detection _ _ _ Hty), Hoc.
    unfold totalDetections, totalObjects, currentObjectCounts. simpl.
    rewrite get_insert_eq. split; [|reflexivity].
    apply all_counts_insert.
  - unfold totalDetections. simpl. apply all_counts_delete.
Qed.

Lemma dashboard_total_follows_the_counts_witness :
  totalDetections (handleSocketMessage Scenario.now_iso Scenario.crowd_event
                     Scenario.detecting)
  = (totalDetections Scenario.detecting
     - sum_counts (default ∅ (objectCounts Scenario.detecting !! "cam-1"))
     + sum_counts {[ "person" := 2%Z ]})%Z.
Proof.
  exact (proj1 (proj1 (dashboard_total_follows_the_counts Scenario.now_iso
                         Scenario.crowd_event {[ "person" := 2%Z ]} "cam-1"
                         Scenario.detecting) eq_refl eq_refl)).
Defined.

End HeaderAndDashboard.

Section MoreStoreFacts.
Import Js Types CameraContext CameraProvider Views.

Implicit Types (st : Store) (m : WebSocketMessage) (cam now : string).

(** No event writes the [error] field: whatever the message, every entry
    of the status dictionary afterwards carries the error that the camera
    had before (none, for a camera without entry).  So the error set by a
    rejected start stays on the card through frames, detections and status
    events; it is an acknowledged start or stop that clears it. *)
Theorem error_outlives_events now m st cam :
  (forall v, cameraStatuses (handleSocketMessage now m st) !! cam = Some v ->
     error v = error (spread (cameraStatuses st) cam))
  /\ (type m = "frame" \/ type m = "detection" \/ type m = "detection_status" ->
      (error <$> cameraStatuses (handleSocketMessage now m
                   (store (startCamera Rejected (key_of m) st))) !! key_of m)
      = Some (Some "Failed to start camera"))
  /\ (error <$> cameraStatuses (store (startCamera Resolved cam st)) !! cam) = Some None
  /\ (error <$> cameraStatuses (store (stopCamera Resolved cam st)) !! cam) = Some None.
Proof.
  split; [|split; [|split]].
  - intros v. destruct (decide (cam = key_of m)) as [->|Hne].
    + destruct (type_cases m) as [H|[H|[H|H]]].
      * rewrite (handle_frame _ _ _ H). simpl. rewrite lookup_insert_eq.
        intros [= <-]. reflexivity.
      * rewrite (handle_detection _ _ _ H). simpl. rewrite lookup_insert_eq.
        intros [= <-]. reflexivity.
      * rewrite (handle_detection_status _ _ _ H). simpl. rewrite lookup_insert_eq.
        intros [= <-]. reflexivity.
      * rewrite H. unfold spread. intros ->. reflexivity.
    + destruct (event_local_lookups now m st cam Hne) as (Hs & _).
      rewrite Hs. unfold spread. intros ->. reflexivity.
  - intros [H|[H|H]];
      [rewrite (handle_frame _ _ _ H)|rewrite (handle_detection _ _ _ H)
      |rewrite (handle_detection_status _ _ _ H)];
      simpl; rewrite lookup_insert_eq; simpl; rewrite spread_insert_eq; reflexivity.
  - simpl. rewrite lookup_insert_eq. reflexivity.
  - simpl. rewrite lookup_insert_eq. reflexivity.
Qed.

Lemma error_outlives_events_witness :
  (error <$> cameraStatuses (handleSocketMessage Scenario.now_iso Scenario.frame_event
               (store (startCamera Rejected "cam-1" empty_store))) !! "cam-1")
  = Some (Some "Failed to start camera").
Proof.
  apply (proj1 (proj2 (error_outlives_events Scenario.now_iso Scenario.frame_event
                         empty_store "cam-1"))).
  left. reflexivity.
Defined.

(** The preview modal's start/stop button: an acknowledged click flips
    what the modal shows as streaming; a rejected click leaves it, and if
    it was a start that was rejected the error is put on the camera. *)
Theorem start_stop_button cam st :
  let shown st0 := flag (isStreaming (modal_status st0 cam)) in
  shown (handleStartStop Resolved cam st) = negb (shown st)
  /\ shown (handleStartStop Rejected cam st) = shown st
  /\ (shown st = true ->
        handleStartStop Rejected cam st = st
        /\ cameraStreams (handleStartStop Resolved cam st) !! cam = None)
  /\ (shown st = false ->
        (error <$> cameraStatuses (handleStartStop Rejected cam st) !! cam)
        = Some (Some "Failed to start camera")).
Proof.
  cbv zeta. unfold handleStartStop.
  destruct (flag (isStreaming (modal_status st cam))) eqn:E.
  - repeat split; try discriminate.
    + unfold modal_status, status_of. simpl. rewrite get_insert_eq. reflexivity.
    + simpl. exact E.
    + simpl. apply lookup_delete_eq.
  - repeat split; try discriminate.
    + unfold modal_status, status_of. simpl. rewrite get_insert_eq. reflexivity.
    + unfold modal_status, status_of. simpl. rewrite get_insert_eq. reflexivity.
    + intros _. simpl. rewrite lookup_insert_eq. reflexivity.
Qed.

Lemma start_stop_button_witness :
  cameraStreams (handleStartStop Resolved "cam-1" Scenario.detecting) !! "cam-1"
  = None.
Proof.
  apply (proj1 (proj2 (proj2 (start_stop_button "cam-1" Scenario.detecting)))).
  reflexivity.
Defined.

(** Adding a camera whose identifier is new everywhere and deleting it
    again (both acknowledged) gives back the camera list and the four
    dictionaries. *)
Theorem add_then_delete_is_identity camera s :
  (forall c, In c (cameras s) -> id c <> id camera) ->
  cameraStatuses (dicts s) !! id camera = None ->
  detectionResults (dicts s) !! id camera = None ->
  cameraStreams (dicts s) !! id camera = None ->
  objectCounts (dicts s) !! id camera = None ->
  let s' := after (deleteCamera Resolved (id camera)
                     (after (addCamera (resolves camera) s))) in
  cameras s' = cameras s /\ dicts s' = dicts s.
Proof.
  intros Hfresh Hs Hr Hf Hc. cbv zeta. simpl. split.
  - rewrite List.filter_app. simpl. rewrite String.eqb_refl. simpl. rewrite app_nil_r.
    apply forallb_filter_id. apply forallb_forall. intros c Hin.
    apply negb_true_iff, String.eqb_neq, Hfresh, Hin.
  - apply store_eq; simpl.
    + rewrite delete_insert_eq. apply delete_id. exact Hs.
    + apply delete_id. exact Hr.
    + apply delete_id. exact Hf.
    + apply delete_id. exact Hc.
Qed.

Lemma add_then_delete_is_identity_witness :
  let camera := mkCamera "cam-9" "Porch" "192.168.1.20" (Num 8080) true
                         "2024-05-01T09:00:00Z" None in
  let s := mkState [] Scenario.detecting false in
  dicts (after (deleteCamera Resolved "cam-9" (after (addCamera (resolves camera) s))))
  = Scenario.detecting.
Proof.
  cbv zeta.
  apply (proj2 (add_then_delete_is_identity
                  (mkCamera "cam-9" "Porch" "192.168.1.20" (Num 8080) true
                            "2024-05-01T09:00:00Z" None)
                  (mkState [] Scenario.detecting false)
                  ltac:(intros c []) eq_refl eq_refl eq_refl eq_refl)).
Defined.

End MoreStoreFacts.

Section DashboardZero.
Import Js Types CameraContext Views.

(** Every count of every camera is at least zero. *)
Lemma sum_counts_nonneg (counts : ObjectCount) :
  map_Forall (fun _ c => (0 <= c)%Z) counts ->
  (0 <= sum_counts counts)%Z
  /\ (sum_counts counts = 0%Z <-> some_positive counts = false).
Proof.
  unfold some_positive.
  induction counts as [|k v counts Hk IH] using map_ind; intros Hall.
  - rewrite sum_counts_empty. split; [lia|]. split; [|reflexivity].
    intros _. apply bool_decide_eq_false_2. apply map_Exists_empty.
  - apply map_Forall_insert in Hall as [Hv Hall]; [|exact Hk].
    destruct (IH Hall) as [Hpos Hzero]. rewrite (sum_counts_insert _ _ _ Hk).
    rewrite bool_decide_eq_false, (map_Exists_insert _ _ _ _ Hk).
    rewrite bool_decide_eq_false in Hzero.
    split; [lia|]. split.
    + intros Hsum. assert (sum_counts counts = 0%Z) by lia.
      intros [Hv'|Hex]; [lia|]. apply Hzero in Hex; [exact Hex|assumption].
    + intros Hno. assert (Hc : sum_counts counts = 0%Z) by (apply Hzero; tauto).
      assert (~ (0 < v)%Z) by tauto. lia.
Qed.

Lemma all_counts_nonneg (dict : gmap string ObjectCount) :
  map_Forall (fun _ counts => map_Forall (fun _ c => (0 <= c)%Z) counts) dict ->
  (0 <= all_counts dict)%Z
  /\ (all_counts dict = 0%Z <->
      forall cam counts, dict !! cam = Some counts -> some_positive counts = false).
Proof.
  induction dict as [|k v dict Hk IH] using map_ind; intros Hall.
  - unfold all_counts. rewrite map_fold_empty. split; [lia|]. split; [|reflexivity].
    intros _ cam counts Hc. rewrite lookup_empty in Hc. discriminate.
  - apply map_Forall_insert in Hall as [Hv Hall]; [|exact Hk].
    destruct (IH Hall) as [Hpos Hzero]. destruct (sum_counts_nonneg v Hv) as [Hvpos Hvzero].
    rewrite (all_counts_insert_fresh _ _ _ Hk).
    split; [lia|]. split.
    + intros Hsum cam counts Hc.
      destruct (decide (k = cam)) as [->|Hne].
      * rewrite lookup_insert_eq in Hc. injection Hc as <-. apply Hvzero. lia.
      * rewrite lookup_insert_ne in Hc by exact Hne.
        assert (Hd : all_counts dict = 0%Z) by lia.
        exact (proj1 Hzero Hd cam counts Hc).
    + intros Hno.
      assert (Hv0 : sum_counts v = 0%Z).
      { apply Hvzero. apply (Hno k). apply lookup_insert_eq. }
      assert (Hd : all_counts dict = 0%Z).
      { apply Hzero. intros cam counts Hc. apply (Hno cam).
        rewrite lookup_insert_ne; [exact Hc|]. intros ->. congruence. }
      lia.
Qed.

(** If no count is negative, the dashboard's two headline numbers agree
    about silence: the grand total is zero exactly when no camera counts
    as detecting; and the total is never negative. *)
Theorem dashboard_numbers_agree st :
  (forall cam counts, objectCounts st !! cam = Some counts ->
     map_Forall (fun _ c => (0 <= c)%Z) counts) ->
  (0 <= totalDetections st)%Z
  /\ (totalDetections st = 0%Z <-> detectingCameras st = 0%nat).
Proof.
  intros Hnn. unfold totalDetections, detectingCameras.
  destruct (all_counts_nonneg (objectCounts st) Hnn) as [Hpos Hzero].
  split; [exact Hpos|]. rewrite Hzero, map_size_empty_iff, map_empty.
  split.
  - intros Hno cam. destruct (filter _ (objectCounts st) !! cam) as [counts|] eqn:E;
      [|reflexivity].
    apply map_lookup_filter_Some in E as [Hc Hp]. simpl in Hp.
    rewrite (Hno _ _ Hc) in Hp. discriminate.
  - intros Hempty cam counts Hc. destruct (some_positive counts) eqn:E; [|reflexivity].
    assert (Hin : filter (fun kv : string * ObjectCount => some_positive kv.2 = true)
                    (objectCounts st) !! cam = Some counts)
      by (apply map_lookup_filter_Some; auto).
    rewrite Hempty in Hin. discriminate.
Qed.

Lemma dashboard_numbers_agree_witness :
  (0 <= totalDetections Scenario.detecting)%Z
  /\ (totalDetections Scenario.detecting = 0%Z
      <-> detectingCameras Scenario.detecting = 0%nat).
Proof.
  apply (dashboard_numbers_agree Scenario.detecting).
  intros cam counts.
  change (objectCounts Scenario.detecting)
    with (<["cam-1" := ({[ "person" := 1%Z ]} : ObjectCount)]>
            (∅ : gmap string ObjectCount)).
  intros Hc. apply lookup_insert_Some in Hc as [[_ <-]|[_ Hc]].
  - apply map_Forall_singleton. lia.
  - rewrite lookup_empty in Hc. discriminate.
Defined.

End DashboardZero.

(* ===================================================================== *)
(** * Further properties of the audio manager                             *)
(* ===================================================================== *)

Section AudioPlayback.
Import Js Types AudioManager AudioApi.

Implicit Types (am : t).

(** What [loadSounds] leaves in the buffers. *)
Lemma load_into (names : list string) : forall buffers : gset string,
  foldl (fun acc name => {[ name ]} ∪ acc) buffers names
  = list_to_set names ∪ buffers.
Proof.
  induction names as [|n names IHnames]; intros buffers; simpl.
  - rewrite (left_id_L ∅ (∪)). reflexivity.
  - rewrite IHnames, (assoc_L (∪)), (comm_L (∪) (list_to_set names)). reflexivity.
Qed.

Lemma loadSounds_buffers am ctx :
  audioContext am = Some ctx ->
  soundBuffers (loadSounds am) = list_to_set soundEffects ∪ soundBuffers am.
Proof.
  intros H. unfold loadSounds. rewrite H. cbn [soundBuffers]. apply load_into.
Qed.

(** Initialising an enabled manager on an open context makes it ready. *)
Lemma initialize_makes_ready am :
  enabled am = true -> ready (initialize (init_ready (mkContext false)) am).
Proof.
  intros Hen. unfold ready, initialize. split; [exact Hen|]. split.
  - eexists. split; reflexivity.
  - intros n Hn. rewrite (loadSounds_buffers _ (mkContext false)) by reflexivity.
    apply elem_of_union_l, elem_of_list_to_set. exact Hn.
Qed.

(** Every cue of the table is one of the loaded sounds. *)
Lemma soundMap_cues_loaded key cue :
  soundMap !! key = Some cue -> cue ∈ soundEffects.
Proof.
  revert key cue.
  assert (H : map_Forall (fun _ cue => bool_decide (cue ∈ soundEffects) = true) soundMap).
  { apply map_Forall_to_list. vm_compute. repeat constructor. }
  intros key cue Hk. apply (bool_decide_eq_true_1 _ (H key cue Hk)).
Qed.

Lemma click_loaded : "click" ∈ soundEffects.
Proof. apply (bool_decide_unpack ("click" ∈ soundEffects)). vm_compute. exact I. Qed.

(** [playSound] on a ready manager with a loaded name. *)
Lemma playSound_ready am soundName volume :
  ready am -> soundName ∈ soundEffects ->
  playSound am (Str soundName) volume
  = [source_started soundName
       (mul (mul (Math_min volume (Num 1)) (Num (1 # 2))) (masterVolume am))].
Proof.
  intros (Hen & (ctx & Hctx & Hopen) & Hload) Hname. unfold playSound.
  rewrite Hen, Hctx. simpl.
  rewrite bool_decide_eq_true_2 by (apply Hload; exact Hname). simpl.
  unfold start_source. rewrite Hopen. reflexivity.
Qed.

Lemma volume_tier_values c :
  volume_tier c = Num 1 \/ volume_tier c = Num (7 # 10) \/ volume_tier c = Num (5 # 10).
Proof.
  unfold volume_tier. destruct (gt c (Num (8 # 10))); [auto|].
  destruct (gt c (Num (5 # 10))); auto.
Qed.

(** A detection sound on a ready manager, as one equation. *)
Lemma detection_sound_ready {lc : LowerCase} am name confidence :
  ready am -> truthy_string name = true -> toLowerCase name ∉ Object_prototype ->
  interpolates confidence = true ->
  playObjectDetectionSound am (a_string name) confidence
  = Return [source_started (default "click" (soundMap !! toLowerCase name))
              (mul (mul (Math_min (volume_tier (checked_confidence confidence)) (Num 1))
                        (Num (1 # 2)))
                   (masterVolume am))].
Proof.
  intros Hready Hname Hkey Hconf.
  assert (Hcue : default "click" (soundMap !! toLowerCase name) ∈ soundEffects).
  { destruct (soundMap !! toLowerCase name) as [cue|] eqn:E; simpl.
    - exact (soundMap_cues_loaded _ _ E).
    - exact click_loaded. }
  unfold playObjectDetectionSound. rewrite Hconf, Hname. simpl.
  rewrite (get_or_soundMap _ Hkey), (playSound_ready _ _ _ Hready Hcue). reflexivity.
Qed.


(** On a ready manager whose master volume lies between 0 and 1, a
    detection sound for a non-empty class name (not a member name inherited
    from [Object.prototype]) and a confidence that the log line can print
    starts exactly one source: the one named by the table for the
    lower-cased class name, or ["click"], which is always among the loaded
    sounds, at a gain of tier times master volume over two, hence between 0
    and one half. *)
Theorem detection_sound_starts_one_source {lc : LowerCase} am name confidence (mv : Q) :
  ready am ->
  masterVolume am = Num mv -> (0 <= mv <= 1)%Q ->
  truthy_string name = true ->
  toLowerCase name ∉ Object_prototype ->
  interpolates confidence = true ->
  exists tier gain,
    volume_tier (checked_confidence confidence) = Num tier
    /\ playObjectDetectionSound am (a_string name) confidence
       = Return [source_started (default "click" (soundMap !! toLowerCase name))
                                (Num gain)]
    /\ default "click" (soundMap !! toLowerCase name) ∈ soundEffects
    /\ (gain == tier * mv / 2)%Q
    /\ (0 <= gain <= 1 # 2)%Q.
Proof.
  intros Hready Hmv Hrange Hname Hkey Hconf.
  assert (Hcue : default "click" (soundMap !! toLowerCase name) ∈ soundEffects).
  { destruct (soundMap !! toLowerCase name) as [cue|] eqn:E; simpl.
    - exact (soundMap_cues_loaded _ _ E).
    - exact click_loaded. }
  rewrite (detection_sound_ready _ _ _ Hready Hname Hkey Hconf), Hmv.
  destruct (volume_tier_values (checked_confidence confidence)) as [E|[E|E]];
    rewrite E; simpl; eexists _, _; (split; [reflexivity|]);
    (split; [reflexivity|]); (split; [exact Hcue|]);
    unfold Qmin, GenericMinMax.gmin; simpl;
    (split; [field|lra]).
Qed.

Lemma detection_sound_starts_one_source_witness :
  exists tier gain,
    volume_tier (checked_confidence (a_number (Num (92 # 100)))) = Num tier
    /\ playObjectDetectionSound (lc := Scenario.lower_case) Scenario.audio
         (a_string "PERSON") (a_number (Num (92 # 100)))
       = Return [source_started "person" (Num gain)]
    /\ "person" ∈ soundEffects
    /\ (gain == tier * (7 # 10) / 2)%Q
    /\ (0 <= gain <= 1 # 2)%Q.
Proof.
  apply (detection_sound_starts_one_source (lc := Scenario.lower_case)
           Scenario.audio "PERSON" (a_number (Num (92 # 100))) (7 # 10)).
  - apply initialize_makes_ready. reflexivity.
  - reflexivity.
  - split; discriminate.
  - reflexivity.
  - apply (bool_decide_unpack
             (toLowerCase (LowerCase := Scenario.lower_case) "PERSON" ∉ Object_prototype)).
    vm_compute. exact I.
  - reflexivity.
Defined.



(** A manager that is disabled, or has no audio context, starts no source,
    whichever entry point is called with whatever arguments. *)
Theorem nothing_plays_when_disabled_or_uninitialised {lc : LowerCase}
    am soundName volume objectType confidence detection :
  enabled am = false \/ audioContext am = None ->
  silent (playSound am soundName volume)
  /\ (forall evs, playObjectDetectionSound am objectType confidence = Return evs ->
        silent evs)
  /\ (forall evs, handleObjectClick am detection = Return evs -> silent evs).
Proof.
  intros Hoff.
  assert (Hplay : forall n v, silent (playSound am n v)).
  { intros n v. unfold playSound, silent.
    destruct Hoff as [-> | Hno]; [reflexivity|].
    rewrite Hno. destruct (enabled am); reflexivity. }
  assert (Hobj : forall o c evs,
            playObjectDetectionSound am o c = Return evs -> silent evs).
  { intros o c evs. unfold playObjectDetectionSound.
    destruct (negb (interpolates o && interpolates c)); [discriminate|].
    destruct o as [n| |]; [destruct (truthy_string n)|..]; simpl;
      intros [= <-]; try reflexivity. apply Hplay. }
  split; [apply Hplay|]. split; [apply Hobj|].
  intros evs. unfold handleObjectClick, playUISound.
  destruct (class_name (InteractiveCameraStream.source detection)) as [c|].
  - destruct (truthy_string c).
    + destruct (playObjectDetectionSound am (a_string c) _) as [evs'|] eqn:E;
        [|discriminate].
      intros [= <-]. unfold silent. rewrite existsb_app.
      rewrite (Hplay _ _), (Hobj _ _ _ E). reflexivity.
    + intros [= <-]. apply Hplay.
  - intros [= <-]. apply Hplay.
Qed.

Lemma nothing_plays_when_disabled_or_uninitialised_witness :
  silent (playSound new (Str "click") (Num 1)).
Proof.
  apply (proj1 (nothing_plays_when_disabled_or_uninitialised (lc := Scenario.lower_case)
                  new (Str "click")
                  (Num 1) (a_other true) (a_other true)
                  (InteractiveCameraStream.mkClickable Scenario.person "id"
                     (InteractiveCameraStream.mkCoords (Num 0) (Num 0) (Num 0) (Num 0)))
                  (or_intror eq_refl))).
Defined.

(** [setMasterVolume] stores a value between 0 and 1 as it is, stores 0
    for everything below (down to minus infinity) and 1 for everything
    above (up to infinity), and touches no other field. *)
Theorem master_volume_clamp (q : Q) am :
  ((0 <= q <= 1)%Q -> same (getMasterVolume (setMasterVolume (Num q) am)) (Num q))
  /\ ((q <= 0)%Q -> same (getMasterVolume (setMasterVolume (Num q) am)) (Num 0))
  /\ ((1 <= q)%Q -> same (getMasterVolume (setMasterVolume (Num q) am)) (Num 1))
  /\ getMasterVolume (setMasterVolume NInf am) = Num 0
  /\ getMasterVolume (setMasterVolume PInf am) = Num 1
  /\ (forall v, enabled (setMasterVolume v am) = enabled am
              /\ audioContext (setMasterVolume v am) = audioContext am
              /\ soundBuffers (setMasterVolume v am) = soundBuffers am).
Proof.
  simpl. repeat split; try reflexivity.
  - intros [H0 H1]. rewrite (Q.min_r 1 q H1). apply Q.max_r. exact H0.
  - intros H0. destruct (Qlt_le_dec q 1) as [Hlt|Hge].
    + rewrite (Q.min_r 1 q (Qlt_le_weak _ _ Hlt)). apply Q.max_l. exact H0.
    + exfalso. lra.
  - intros H1. rewrite (Q.min_l 1 q H1). apply Q.max_r. discriminate.
Qed.

Lemma master_volume_clamp_witness :
  same (getMasterVolume (setMasterVolume (Num (3 # 2)) new)) (Num 1).
Proof.
  apply (proj1 (proj2 (proj2 (master_volume_clamp (3 # 2) new)))). discriminate.
Defined.

(** Initialising twice with the same outcome is the same as initialising
    once; no outcome changes the enabled flag or the master volume, and a
    failing constructor changes nothing at all. *)
Theorem initialize_is_idempotent i am :
  initialize i (initialize i am) = initialize i am
  /\ enabled (initialize i am) = enabled am
  /\ masterVolume (initialize i am) = masterVolume am
  /\ initialize init_no_context am = am.
Proof.
  assert (Hload : forall ctx buffers en mv,
            loadSounds (mkManager (Some ctx) buffers en mv)
            = mkManager (Some ctx) (list_to_set soundEffects ∪ buffers) en mv).
  { intros. unfold loadSounds. cbn [audioContext soundBuffers enabled masterVolume].
    rewrite load_into. reflexivity. }
  destruct i as [|ctx|ctx]; unfold initialize; rewrite ?Hload;
    cbn [audioContext soundBuffers enabled masterVolume]; rewrite ?Hload;
    repeat split; try reflexivity.
  rewrite (assoc_L (∪)), (idemp_L (∪)). reflexivity.
Qed.

End AudioPlayback.

(* ===================================================================== *)
(** * Further properties of the interactive stream component              *)
(* ===================================================================== *)

Section CooldownFacts.
Import Js Types InteractiveCameraStream Renders.

(** A call that plays is past the cooldown of the ledger it read. *)
Lemma played_is_cooled_down en lastSoundTime class c now s :
  playDetectionSound en lastSoundTime class c now = Some s ->
  objectType s = class /\ at_time s = now
  /\ (SOUND_COOLDOWN < now - last_played lastSoundTime class)%Z.
Proof.
  unfold playDetectionSound.
  destruct (negb en || negb (truthy_string class)); [discriminate|].
  destruct (cooled_down lastSoundTime class now) eqn:E; [|discriminate].
  intros [= <-]. simpl. split; [reflexivity|]. split; [reflexivity|].
  revert E. unfold cooled_down, get, last_played.
  destruct (lastSoundTime !! class) as [t|]; simpl.
  - intros E. apply Z.ltb_lt in E. exact E.
  - case_bool_decide; [discriminate|]. intros E. apply Z.ltb_lt in E. exact E.
Qed.

Lemma spaced_lower last ts :
  spaced last ts -> Forall (fun t => (SOUND_COOLDOWN < t - last)%Z) ts.
Proof.
  revert last. induction ts as [|t ts IH]; intros last Hs; [constructor|].
  destruct Hs as [H1 H2]. constructor; [exact H1|].
  apply (Forall_impl _ _ _ (IH _ H2)). unfold SOUND_COOLDOWN in *. intros x Hx. lia.
Qed.

Lemma spaced_pairwise last ts i j a b :
  spaced last ts -> (i < j)%nat -> ts !! i = Some a -> ts !! j = Some b ->
  (SOUND_COOLDOWN < b - a)%Z.
Proof.
  revert last i j. induction ts as [|t ts IH]; intros last i j Hs Hij Hi Hj;
    [discriminate|].
  destruct Hs as [H1 H2]. destruct j as [|j]; [lia|].
  destruct i as [|i].
  - injection Hi as <-. simpl in Hj.
    pose proof (spaced_lower _ _ H2) as Hall.
    rewrite Forall_forall in Hall. apply Hall.
    apply list_elem_of_lookup. eauto.
  - simpl in Hi, Hj. apply (IH t i j); [exact H2|lia|exact Hi|exact Hj].
Qed.

(** When every call is made from a fresh render (the update of the call
    before it committed), the times at which one class is played are
    spaced: each is more than 1000 ms after the one before it, the first
    more than 1000 ms after the ledger's entry; so any two sounds of one
    class are more than 1000 ms apart, whatever the calls and their
    times. *)
Theorem cooldown_holds_across_renders en lastSoundTime calls class :
  let ts := times_of class (one_call_per_render en lastSoundTime calls) in
  spaced (last_played lastSoundTime class) ts
  /\ (forall i j a b, (i < j)%nat -> ts !! i = Some a -> ts !! j = Some b ->
        (1000 < b - a)%Z).
Proof.
  cbv zeta.
  assert (Hs : spaced (last_played lastSoundTime class)
                 (times_of class (one_call_per_render en lastSoundTime calls))).
  { revert lastSoundTime. induction calls as [|c calls IH]; intros lastSoundTime;
      [exact I|].
    cbn [one_call_per_render].
    destruct (playDetectionSound en lastSoundTime (call_class c) (call_confidence c)
                (call_time c)) as [s|] eqn:E; simpl.
    - destruct (played_is_cooled_down _ _ _ _ _ _ E) as (Hty & Htime & Hcool).
      unfold times_of. simpl.
      destruct (String.eqb (objectType s) class) eqn:Ec.
      + apply String.eqb_eq in Ec. subst class. simpl. split.
        * rewrite Htime, Hty. exact Hcool.
        * specialize (IH (<[objectType s := at_time s]> lastSoundTime)).
          unfold last_played in IH at 1. rewrite lookup_insert_eq in IH.
          exact IH.
      + apply String.eqb_neq in Ec.
        specialize (IH (<[objectType s := at_time s]> lastSoundTime)).
        unfold last_played in IH at 1. rewrite lookup_insert_ne in IH by exact Ec.
        exact IH.
    - apply IH. }
  split; [exact Hs|].
  intros i j a b Hij Hi Hj. exact (spaced_pairwise _ _ i j a b Hs Hij Hi Hj).
Qed.

Lemma cooldown_holds_across_renders_witness :
  let calls := [ mkCall "person" (Num (9 # 10)) 1714557600000;
                 mkCall "person" (Num (9 # 10)) 1714557600400;
                 mkCall "person" (Num (9 # 10)) 1714557602000 ] in
  times_of "person" (one_call_per_render true ∅ calls)
    = [1714557600000; 1714557602000]%Z
  /\ (1000 < 1714557602000 - 1714557600000)%Z.
Proof.
  cbv zeta. split; [reflexivity|].
  apply (proj2 (cooldown_holds_across_renders true ∅
                  [ mkCall "person" (Num (9 # 10)) 1714557600000;
                    mkCall "person" (Num (9 # 10)) 1714557600400;
                    mkCall "person" (Num (9 # 10)) 1714557602000 ] "person")
               0%nat 1%nat).
  - lia.
  - reflexivity.
  - reflexivity.
Defined.

(** The ledger only moves forward: after the updates queued by one run of
    the effect are committed, a class's entry is what it was, or more than
    1000 ms later than it was. *)
Lemma commit_last_played lastSoundTime queued class :
  last_played (commit lastSoundTime queued) class = last_played lastSoundTime class
  \/ exists s, s ∈ queued /\ objectType s = class
       /\ last_played (commit lastSoundTime queued) class = at_time s.
Proof.
  revert lastSoundTime. induction queued as [|s queued IH]; intros lastSoundTime;
    [left; reflexivity|].
  unfold commit. cbn [foldl]. fold (commit (<[objectType s := at_time s]> lastSoundTime) queued).
  destruct (IH (<[objectType s := at_time s]> lastSoundTime)) as [Hsame|(s' & Hin & Hty & Hval)].
  - rewrite Hsame. unfold last_played.
    destruct (decide (objectType s = class)) as [Heq|Hne].
    + right. exists s. rewrite Heq, lookup_insert_eq. split; [left|]. auto.
    + left. rewrite lookup_insert_ne by exact Hne. reflexivity.
  - right. exists s'. split; [right; exact Hin|]. auto.
Qed.

End CooldownFacts.

Section EffectFacts.
Import Js Types InteractiveCameraStream Renders.

Variables (cameraId : string) (refs : Refs).

(** The screen rectangle that goes with a detection, if it gets one. *)
Local Abbreviation region canvas :=
  (fun d : Detection =>
     if present d then
       match calculateScreenCoordinates refs d (canvas_width canvas)
               (canvas_height canvas) with
       | Some sc => [(d, sc)]
       | None => []
       end
     else []).

Local Abbreviation pair_of := (fun item : ClickableDetection => (source item, coords item)).

Lemma forEach_body_regions esa lst clock canvas acc index d :
  map pair_of (clickableItems (forEach_body cameraId esa lst refs clock canvas acc index d))
  = map pair_of (clickableItems acc) ++ region canvas d.
Proof.
  unfold forEach_body. destruct (present d); simpl; [|rewrite app_nil_r; reflexivity].
  destruct (calculateScreenCoordinates _ _ _ _) as [sc|]; [|rewrite app_nil_r; reflexivity].
  destruct (class_name d) as [c|]; [destruct (esa && truthy_string c)|];
    simpl; rewrite map_app; reflexivity.
Qed.

Lemma forEach_regions esa lst clock canvas dets : forall index acc,
  map pair_of (clickableItems
                 (forEach (forEach_body cameraId esa lst refs clock canvas) dets index acc))
  = map pair_of (clickableItems acc) ++ flat_map (region canvas) dets.
Proof.
  induction dets as [|d dets IH]; intros index acc; simpl.
  - rewrite app_nil_r. reflexivity.
  - rewrite IH, forEach_body_regions, <- app_assoc. reflexivity.
Qed.

(** The sounds of a run: each passed the cooldown of the captured ledger,
    and there is at most one per item pushed. *)
Lemma forEach_body_sounds esa lst clock canvas acc index d :
  let acc' := forEach_body cameraId esa lst refs clock canvas acc index d in
  (Forall (passed lst) (sounds acc) -> Forall (passed lst) (sounds acc'))
  /\ (esa = false -> sounds acc' = sounds acc)
  /\ (length (sounds acc) <= length (clickableItems acc) ->
      length (sounds acc') <= length (clickableItems acc'))%nat.
Proof.
  cbv zeta. unfold forEach_body. destruct (present d); simpl; [|auto].
  destruct (calculateScreenCoordinates _ _ _ _) as [sc|]; [|auto].
  destruct (class_name d) as [c|]; simpl.
  - destruct (esa && truthy_string c) eqn:Eflags; simpl.
    + destruct (playDetectionSound esa lst c _ _) as [s|] eqn:Eplay; simpl.
      * destruct (played_is_cooled_down _ _ _ _ _ _ Eplay) as (Hty & Htime & Hcool).
        repeat split.
        -- intros Hacc. apply Forall_app. split; [exact Hacc|].
           constructor; [|constructor]. unfold passed. rewrite Hty, Htime. exact Hcool.
        -- intros ->. discriminate.
        -- rewrite !length_app. simpl. lia.
      * rewrite app_nil_r. repeat split; auto. rewrite length_app. simpl. lia.
    + repeat split; auto. rewrite length_app. simpl. lia.
  - repeat split; auto. rewrite length_app. simpl. lia.
Qed.

Lemma forEach_sounds esa lst clock canvas dets : forall index acc,
  let acc' := forEach (forEach_body cameraId esa lst refs clock canvas) dets index acc in
  (Forall (passed lst) (sounds acc) -> Forall (passed lst) (sounds acc'))
  /\ (esa = false -> sounds acc' = sounds acc)
  /\ (length (sounds acc) <= length (clickableItems acc) ->
      length (sounds acc') <= length (clickableItems acc'))%nat.
Proof.
  induction dets as [|d dets IH]; intros index acc; cbv zeta; simpl; [auto|].
  destruct (forEach_body_sounds esa lst clock canvas acc index d) as (H1 & H2 & H3).
  destruct (IH (S index) (forEach_body cameraId esa lst refs clock canvas acc index d))
    as (I1 & I2 & I3).
  repeat split.
  - intros H. apply I1, H1, H.
  - intros H. rewrite (I2 H). apply H2, H.
  - intros H. apply I3, H3, H.
Qed.

(** The items of a run do not depend on the sound settings, the ledger or
    the clock: two runs over the same detections and refs push items with
    the same sources and the same screen rectangles, and each item carries
    the rectangle computed for its own detection.  With sound alerts off a
    run triggers no sound; in any run there are no more sounds than
    items. *)
Theorem clickable_items_ignore_sound_settings
    eoc esa esa' lst lst' clock clock' result p p' :
  clickable_effect cameraId eoc esa lst refs clock (Some result) = Some p ->
  clickable_effect cameraId eoc esa' lst' refs clock' (Some result) = Some p' ->
  map source (clickableItems p') = map source (clickableItems p)
  /\ map coords (clickableItems p') = map coords (clickableItems p)
  /\ List.Forall (fun item => exists canvas,
         canvasRef refs = Some canvas
         /\ calculateScreenCoordinates refs (source item)
              (canvas_width canvas) (canvas_height canvas) = Some (coords item))
       (clickableItems p)
  /\ (esa = false -> sounds p = [])
  /\ (length (sounds p) <= length (clickableItems p))%nat.
Proof.
  unfold clickable_effect.
  destruct (if eoc then Some result ≫= detections else None) as [dets|];
    [|intros [= <-] [= <-]; repeat split; auto; constructor].
  destruct (canvasRef refs) as [canvas|] eqn:Hcanvas; [|discriminate].
  intros [= <-] [= <-].
  pose proof (forEach_regions esa lst clock canvas dets 0 (mkPass [] [] 0)) as Hp.
  pose proof (forEach_regions esa' lst' clock' canvas dets 0 (mkPass [] [] 0)) as Hp'.
  simpl in Hp, Hp'.
  destruct (forEach_sounds esa lst clock canvas dets 0 (mkPass [] [] 0)) as (_ & Hoff & Hlen).
  set (items := clickableItems (forEach _ dets 0 (mkPass [] [] 0))) in *.
  set (items' := clickableItems (forEach (forEach_body cameraId esa' lst' refs clock' canvas)
                                   dets 0 (mkPass [] [] 0))) in *.
  assert (Hfst : forall l, map source l = map fst (map pair_of l))
    by (intros l; rewrite map_map; reflexivity).
  assert (Hsnd : forall l, map coords l = map snd (map pair_of l))
    by (intros l; rewrite map_map; reflexivity).
  repeat split.
  - rewrite (Hfst items'), (Hfst items), Hp, Hp'. reflexivity.
  - rewrite (Hsnd items'), (Hsnd items), Hp, Hp'. reflexivity.
  - apply List.Forall_forall. intros item Hin.
    apply (in_map pair_of) in Hin. rewrite Hp in Hin.
    apply in_flat_map in Hin as (d & _ & Hd).
    exists canvas. split; [reflexivity|].
    destruct (present d); [|destruct Hd].
    destruct (calculateScreenCoordinates refs d _ _) as [sc|] eqn:Hsc; [|destruct Hd].
    destruct Hd as [[= <- <-]|[]]. exact Hsc.
  - intros Hesa. exact (Hoff Hesa).
  - apply Hlen. simpl. lia.
Qed.

(** The ledger moves forward only: every sound of a run passed the
    cooldown of the ledger the run captured, so once the queued updates
    are committed a class's entry is what it was, or more than 1000 ms
    later than it was. *)
Theorem run_moves_the_ledger_forward eoc esa lst clock detections p class :
  clickable_effect cameraId eoc esa lst refs clock detections = Some p ->
  Forall (passed lst) (sounds p)
  /\ (last_played (commit lst (sounds p)) class = last_played lst class
      \/ (1000 < last_played (commit lst (sounds p)) class - last_played lst class)%Z).
Proof.
  intros Hp.
  assert (Hall : Forall (passed lst) (sounds p)).
  { revert Hp. unfold clickable_effect.
    destruct (if eoc then detections ≫= Types.detections else None) as [dets|];
      [|intros [= <-]; constructor].
    destruct (canvasRef refs) as [canvas|]; [|discriminate].
    intros [= <-].
    apply (forEach_sounds esa lst clock canvas dets 0 (mkPass [] [] 0)). constructor. }
  split; [exact Hall|].
  destruct (commit_last_played lst (sounds p) class) as [Hsame|(s & Hin & Hty & Hval)];
    [left; exact Hsame|].
  right. rewrite Hval. rewrite Forall_forall in Hall.
  specialize (Hall s Hin). unfold passed, SOUND_COOLDOWN in Hall. rewrite Hty in Hall.
  exact Hall.
Qed.

End EffectFacts.

Section EffectWitnesses.
Import Js Types InteractiveCameraStream Renders.

Lemma clickable_items_ignore_sound_settings_witness :
  exists p p',
    clickable_effect "cam-1" true true ∅ Scenario.refs Scenario.clock
      (Some Scenario.crowd_event) = Some p
    /\ clickable_effect "cam-1" true false {[ "person" := 1714557599999%Z ]}
         Scenario.refs (fun _ => 0%Z) (Some Scenario.crowd_event) = Some p'
    /\ map coords (clickableItems p') = map coords (clickableItems p)
    /\ sounds p' = [].
Proof.
  eexists _, _. split; [reflexivity|]. split; [reflexivity|].
  destruct (clickable_items_ignore_sound_settings "cam-1" Scenario.refs true true false ∅
              {[ "person" := 1714557599999%Z ]} Scenario.clock (fun _ => 0%Z)
              Scenario.crowd_event _ _ eq_refl eq_refl) as (_ & Hcoords & _).
  split; [exact Hcoords|].
  destruct (clickable_items_ignore_sound_settings "cam-1" Scenario.refs true false true
              {[ "person" := 1714557599999%Z ]} ∅ (fun _ => 0%Z) Scenario.clock
              Scenario.crowd_event _ _ eq_refl eq_refl) as (_ & _ & _ & Hsil & _).
  exact (Hsil eq_refl).
Defined.

Lemma run_moves_the_ledger_forward_witness :
  exists p,
    clickable_effect "cam-1" true true ∅ Scenario.refs Scenario.clock
      (Some Scenario.crowd_event) = Some p
    /\ Forall (passed ∅) (sounds p).
Proof.
  eexists. split; [reflexivity|].
  exact (proj1 (run_moves_the_ledger_forward "cam-1" Scenario.refs true true ∅ Scenario.clock
                  (Some Scenario.crowd_event) _ "person" eq_refl)).
Defined.

End EffectWitnesses.

Section RegionsAndClicks.
Import Js Types InteractiveCameraStream AudioManager AudioApi.

(** A bounding box that lies inside the image is mapped to a rectangle
    that lies inside the canvas as it is laid out: between the canvas's
    left and right edge and between its top and bottom edge, measured
    from the container's corner.  (Exact numbers, native size positive,
    displayed size not negative.) *)
Theorem regions_stay_inside_the_canvas (x y w h W H W' H' L T L0 T0 : Q)
    (x2 y2 cw ch cW cH : number) (d : Detection) (refs : Refs) :
  bbox d = Some (mkBBox (Num x) (Num y) x2 y2 (Num w) (Num h)) ->
  canvasRef refs = Some (mkCanvas cw ch (mkRect (Num L) (Num T) (Num W') (Num H'))) ->
  containerRef refs = Some (mkRect (Num L0) (Num T0) cW cH) ->
  (0 < W /\ 0 < H /\ 0 <= W' /\ 0 <= H')%Q ->
  (0 <= x /\ 0 <= w /\ x + w <= W)%Q ->
  (0 <= y /\ 0 <= h /\ y + h <= H)%Q ->
  exists sx sy sw sh,
    calculateScreenCoordinates refs d (Num W) (Num H)
      = Some (mkCoords (Num sx) (Num sy) (Num sw) (Num sh))
    /\ (L - L0 <= sx /\ 0 <= sw /\ sx + sw <= L - L0 + W')%Q
    /\ (T - T0 <= sy /\ 0 <= sh /\ sy + sh <= T - T0 + H')%Q.
Proof.
  intros Hb Hc Hk (HW & HH & HW' & HH') (Hx & Hw & Hxw) (Hy & Hh & Hyh).
  unfold calculateScreenCoordinates. rewrite Hb, Hc, Hk. simpl.
  rewrite (Qzero_false W), (Qzero_false H) by lra.
  eexists _, _, _, _. split; [reflexivity|].
  assert (HsW : (0 <= W' / W)%Q) by (apply Qle_shift_div_l; lra).
  assert (HsH : (0 <= H' / H)%Q) by (apply Qle_shift_div_l; lra).
  assert (HeW : (W' / W * W == W')%Q) by (field; lra).
  assert (HeH : (H' / H * H == H')%Q) by (field; lra).
  set (a := (W' / W)%Q) in *. set (b := (H' / H)%Q) in *.
  split; repeat split; nra.
Qed.

Lemma regions_stay_inside_the_canvas_witness :
  exists sx sy sw sh,
    calculateScreenCoordinates Scenario.refs Scenario.person (Num 640) (Num 480)
      = Some (mkCoords (Num sx) (Num sy) (Num sw) (Num sh))
    /\ (10 - 0 <= sx /\ 0 <= sw /\ sx + sw <= 10 - 0 + 320)%Q
    /\ (20 - 0 <= sy /\ 0 <= sh /\ sy + sh <= 20 - 0 + 240)%Q.
Proof.
  apply (regions_stay_inside_the_canvas 100 50 100 250 640 480 320 240 10 20 0 0
           (Num 200) (Num 300) (Num 640) (Num 480) (Num 400) (Num 300)
           Scenario.person Scenario.refs eq_refl eq_refl eq_refl).
  - repeat split; discriminate.
  - repeat split; discriminate.
  - repeat split; discriminate.
Defined.



End RegionsAndClicks.

Section ItemKeys.
Import Js Types InteractiveCameraStream Renders.

Lemma dashless_app a b : dashless (a +:+ b) = dashless a && dashless b.
Proof.
  induction a as [|c a IH]; [reflexivity|].
  change (dashless (String c (a +:+ b)) = dashless (String c a) && dashless b).
  cbn [dashless]. rewrite IH, andb_assoc. reflexivity.
Qed.

Lemma pretty_N_char_dashless x : dashless (String (pretty_N_char x) "") = true.
Proof.
  unfold pretty_N_char.
  repeat (match goal with |- context [match ?y with _ => _ end] => destruct y end;
          try reflexivity).
Qed.

Lemma append_String a c s : a +:+ String c s = (a +:+ String c "") +:+ s.
Proof.
  induction a as [|c' a IH]; [reflexivity|].
  change (String c' (a +:+ String c s) = String c' ((a +:+ String c "") +:+ s)).
  rewrite IH. reflexivity.
Qed.

Lemma pretty_N_go_dashless x : forall s,
  exists d, pretty_N_go x s = d +:+ s /\ dashless d = true.
Proof.
  induction (N.lt_wf_0 x) as [x _ IH]; intros s.
  destruct (decide (0 < x)%N) as [Hpos|Hzero].
  - rewrite (pretty_N_go_step x s Hpos).
    destruct (IH (x `div` 10)%N ltac:(apply N.div_lt; lia)
                 (String (pretty_N_char (x `mod` 10)) s)) as (d & -> & Hd).
    exists (d +:+ String (pretty_N_char (x `mod` 10)) "").
    split; [apply append_String|].
    rewrite dashless_app, Hd, pretty_N_char_dashless. reflexivity.
  - assert (x = 0%N) as -> by lia. exists "". split; reflexivity.
Qed.

Lemma pretty_nat_dashless (n : nat) : dashless (pretty n) = true.
Proof.
  unfold pretty, pretty_nat, pretty, pretty_N.
  destruct (decide (N.of_nat n = 0%N)); [reflexivity|].
  destruct (pretty_N_go_dashless (N.of_nat n) "") as (d & -> & Hd).
  rewrite dashless_app, Hd. reflexivity.
Qed.

(** Two dash-free strings followed by a dash are equal if the whole
    strings are. *)
Lemma dash_splits a : forall b x y,
  dashless a = true -> dashless b = true ->
  a +:+ "-" +:+ x = b +:+ "-" +:+ y -> a = b.
Proof.
  induction a as [|c a IH]; intros b x y Ha Hb Heq.
  - destruct b as [|c' b]; [reflexivity|].
    exfalso. cbn [dashless] in Hb. apply andb_true_iff in Hb as [Hc _].
    change ("-" +:+ x = String c' (b +:+ "-" +:+ y)) in Heq.
    injection Heq as Hc' _. subst c'. discriminate.
  - destruct b as [|c' b].
    + exfalso. cbn [dashless] in Ha. apply andb_true_iff in Ha as [Hc _].
      change (String c (a +:+ "-" +:+ x) = "-" +:+ y) in Heq.
      injection Heq as Hc' _. subst c. discriminate.
    + change (String c (a +:+ "-" +:+ x) = String c' (b +:+ "-" +:+ y)) in Heq.
      injection Heq as -> Hrest.
      cbn [dashless] in Ha, Hb.
      apply andb_true_iff in Ha as [_ Ha]. apply andb_true_iff in Hb as [_ Hb].
      f_equal. exact (IH b x y Ha Hb Hrest).
Qed.

Lemma append_cancel p : forall x y, p +:+ x = p +:+ y -> x = y.
Proof.
  induction p as [|c p IH]; intros x y H; [exact H|].
  change (String c (p +:+ x) = String c (p +:+ y)) in H.
  injection H as H. exact (IH _ _ H).
Qed.

(** Identifiers built for different indexes differ. *)
Lemma keys_differ cameraId (i j : nat) (t u : Z) :
  cameraId +:+ "-" +:+ pretty i +:+ "-" +:+ pretty t
  = cameraId +:+ "-" +:+ pretty j +:+ "-" +:+ pretty u ->
  i = j.
Proof.
  intros H. apply append_cancel in H.
  change (String (Ascii.ascii_of_nat 45) (pretty i +:+ "-" +:+ pretty t)
          = String (Ascii.ascii_of_nat 45) (pretty j +:+ "-" +:+ pretty u)) in H.
  injection H as H.
  apply (inj pretty).
  exact (dash_splits _ _ _ _ (pretty_nat_dashless i) (pretty_nat_dashless j) H).
Qed.

Section Keys.
Variables (cameraId : string) (esa : bool) (lst : gmap string Z).
Variables (refs : Refs) (clock : nat -> Z) (canvas : Canvas).

(** The identifier was built for the index [k]. *)
Local Abbreviation keyed item k :=
  (exists t : Z, id item = cameraId +:+ "-" +:+ pretty k +:+ "-" +:+ pretty t).

Local Abbreviation body := (forEach_body cameraId esa lst refs clock canvas).

Lemma forEach_body_key acc index d :
  clickableItems (body acc index d) = clickableItems acc
  \/ exists item, clickableItems (body acc index d) = clickableItems acc ++ [item]
       /\ keyed item index.
Proof.
  unfold forEach_body. destruct (present d); simpl; [|left; reflexivity].
  destruct (calculateScreenCoordinates _ _ _ _) as [sc|]; [|left; reflexivity].
  right. eexists. split.
  - destruct (class_name d) as [c|]; [destruct (esa && truthy_string c)|];
      simpl; reflexivity.
  - simpl. eexists. reflexivity.
Qed.

Lemma forEach_keys dets : forall index acc,
  NoDup (map id (clickableItems acc)) ->
  (forall item, In item (clickableItems acc) -> exists k, (k < index)%nat /\ keyed item k) ->
  NoDup (map id (clickableItems (forEach body dets index acc))).
Proof.
  induction dets as [|d dets IH]; intros index acc Hnd Hold; simpl; [exact Hnd|].
  apply IH.
  - destruct (forEach_body_key acc index d) as [->|(item & -> & t & Hid)]; [exact Hnd|].
    rewrite map_app. simpl. apply NoDup_app. split; [exact Hnd|]. split.
    + intros x Hx Hx'. apply list_elem_of_singleton in Hx'. subst x.
      apply list_elem_of_In, in_map_iff in Hx as (old & Heq & Hin).
      destruct (Hold old Hin) as (k & Hk & t' & Hid').
      rewrite Hid, Hid' in Heq. apply keys_differ in Heq. lia.
    + apply NoDup_singleton.
  - intros item Hin.
    destruct (forEach_body_key acc index d) as [Hsame|(new & Hpush & t & Hid)].
    + rewrite Hsame in Hin. destruct (Hold item Hin) as (k & Hk & Hkey).
      exists k. split; [lia|exact Hkey].
    + rewrite Hpush in Hin. apply in_app_iff in Hin as [Hin|[<-|[]]].
      * destruct (Hold item Hin) as (k & Hk & Hkey). exists k. split; [lia|exact Hkey].
      * exists index. split; [lia|]. exists t. exact Hid.
Qed.

End Keys.

(** The items of one run have pairwise different identifiers (they are
    the React keys of the overlay): the identifier embeds the position of
    the detection, whatever the clock reads. *)
Theorem item_keys_are_unique cameraId eoc esa lst refs clock detections p :
  clickable_effect cameraId eoc esa lst refs clock detections = Some p ->
  NoDup (map id (clickableItems p)).
Proof.
  unfold clickable_effect.
  destruct (if eoc then detections ≫= Types.detections else None) as [dets|];
    [|intros [= <-]; constructor].
  destruct (canvasRef refs) as [cv|]; [|discriminate].
  intros [= <-]. apply forEach_keys; [constructor|intros item []].
Qed.

End ItemKeys.

Lemma item_keys_are_unique_witness :
  exists p,
    InteractiveCameraStream.clickable_effect "cam-1" true true ∅ Scenario.refs
      (fun _ => 0%Z) (Some Scenario.crowd_event) = Some p
    /\ NoDup (map InteractiveCameraStream.id (InteractiveCameraStream.clickableItems p)).
Proof.
  eexists. split; [reflexivity|].
  exact (item_keys_are_unique "cam-1" true true ∅ Scenario.refs (fun _ => 0%Z)
           (Some Scenario.crowd_event) _ eq_refl).
Defined.

(* ===================================================================== *)
(** * Properties of the add-camera form                                   *)
(* ===================================================================== *)

Section FormFacts.
Import Js AddCameraModal.

Lemma append_empty s : s +:+ "" = s.
Proof.
  induction s as [|c s IH]; [reflexivity|].
  change (String c (s +:+ "") = String c s). f_equal. exact IH.
Qed.

Lemma digits_run_spec s :
  exists a, s = a +:+ (digits_run s).2
    /\ all_digits a = true /\ String.length a = (digits_run s).1
    /\ no_digit_ahead (digits_run s).2.
Proof.
  induction s as [|c s IH]; simpl.
  - exists "". auto.
  - destruct (is_digit c) eqn:Ec.
    + destruct IH as (a & Hs & Ha & Hl & Hn).
      destruct (digits_run s) as [n rest]. simpl in *.
      exists (String c a).
      split; [change (String c s = String c (a +:+ rest)); rewrite <- Hs; reflexivity|].
      simpl. rewrite Ec, Ha, Hl. auto.
    + exists "". simpl. auto.
Qed.

Lemma digits_run_app a rest :
  all_digits a = true -> no_digit_ahead rest ->
  digits_run (a +:+ rest) = (String.length a, rest).
Proof.
  intros Ha Hr. induction a as [|c a IH]; simpl in *.
  - destruct rest as [|c r]; [reflexivity|]. simpl in *. rewrite Hr. reflexivity.
  - apply andb_true_iff in Ha as [Hc Ha]. rewrite Hc, (IH Ha). reflexivity.
Qed.

Lemma group_iff s rest :
  group s = Some rest <->
  exists a, octet a /\ s = a +:+ rest /\ no_digit_ahead rest.
Proof.
  unfold group, octet. split.
  - destruct (digits_run_spec s) as (a & Hs & Ha & Hl & Hn).
    destruct (digits_run s) as [n r]. cbn [fst snd] in Hs, Hl, Hn.
    destruct (1 <=? n)%nat eqn:E1; [|discriminate].
    destruct (n <=? 3)%nat eqn:E2; [|discriminate].
    cbn [andb]. intros Heq. injection Heq as <-.
    exists a. apply Nat.leb_le in E1, E2. rewrite Hl. auto.
  - intros (a & (Ha & Hlen) & -> & Hn). rewrite (digits_run_app _ _ Ha Hn).
    destruct Hlen as [H1 H2]. apply Nat.leb_le in H1, H2. rewrite H1, H2. reflexivity.
Qed.

Lemma dot_iff s rest : dot s = Some rest <-> s = "." +:+ rest.
Proof.
  unfold dot. destruct s as [|c s]; simpl; [split; discriminate|].
  destruct (code c =? 46)%nat eqn:E.
  - apply Nat.eqb_eq in E. unfold code in E.
    assert (c = Ascii.ascii_of_nat 46) by (rewrite <- E, Ascii.ascii_nat_embedding; reflexivity).
    subst c. split; [intros [= ->]; reflexivity|intros [= ->]; reflexivity].
  - split; [discriminate|]. intros [= -> _]. discriminate.
Qed.

Lemma dot_no_digit rest : no_digit_ahead ("." +:+ rest).
Proof. reflexivity. Qed.

(** The address check accepts exactly four groups of one to three digits
    separated by dots; it puts no bound on the groups, and it accepts no
    surrounding white space. *)
Theorem ip_check_accepts_dotted_quads s :
  ipRegex_test s = true <->
  exists a b c d, octet a /\ octet b /\ octet c /\ octet d
    /\ s = a +:+ "." +:+ b +:+ "." +:+ c +:+ "." +:+ d.
Proof.
  unfold ipRegex_test. cbn [foldl]. split.
  - destruct (group s) as [r1|] eqn:G1; [|discriminate]. cbn [andThen].
    destruct (dot r1) as [r2|] eqn:D1; [|discriminate]. cbn [andThen].
    destruct (group r2) as [r3|] eqn:G2; [|discriminate]. cbn [andThen].
    destruct (dot r3) as [r4|] eqn:D2; [|discriminate]. cbn [andThen].
    destruct (group r4) as [r5|] eqn:G3; [|discriminate]. cbn [andThen].
    destruct (dot r5) as [r6|] eqn:D3; [|discriminate]. cbn [andThen].
    destruct (group r6) as [[|? ?]|] eqn:G4; try discriminate. intros _.
    apply group_iff in G1 as (a & Ha & -> & _).
    apply group_iff in G2 as (b & Hb & -> & _).
    apply group_iff in G3 as (c & Hc & -> & _).
    apply group_iff in G4 as (d & Hd & -> & _).
    apply dot_iff in D1, D2, D3. subst.
    exists a, b, c, d. repeat split; try apply Ha; try apply Hb; try apply Hc;
      try apply Hd.
    rewrite append_empty. reflexivity.
  - intros (a & b & c & d & Ha & Hb & Hc & Hd & ->).
    rewrite (proj2 (group_iff _ ("." +:+ b +:+ "." +:+ c +:+ "." +:+ d)))
      by (exists a; auto using dot_no_digit).
    cbn [andThen]. rewrite (proj2 (dot_iff _ _) eq_refl). cbn [andThen].
    rewrite (proj2 (group_iff _ ("." +:+ c +:+ "." +:+ d)))
      by (exists b; auto using dot_no_digit).
    cbn [andThen]. rewrite (proj2 (dot_iff _ _) eq_refl). cbn [andThen].
    rewrite (proj2 (group_iff _ ("." +:+ d)))
      by (exists c; auto using dot_no_digit).
    cbn [andThen]. rewrite (proj2 (dot_iff _ _) eq_refl). cbn [andThen].
    rewrite (proj2 (group_iff d ""))
      by (exists d; rewrite append_empty; simpl; auto).
    reflexivity.
Qed.

Lemma ip_check_accepts_dotted_quads_witness :
  ipRegex_test "999.1.22.333" = true.
Proof.
  apply (proj2 (ip_check_accepts_dotted_quads "999.1.22.333")).
  exists "999", "1", "22", "333". repeat split; simpl; lia.
Defined.

(** The checks pass, or one of them sets a non-empty error text. *)
Lemma check_spec formData (q : Q) :
  port formData = Num q ->
  let valid :=
    blank (name formData) = false /\ blank (ip_address formData) = false
    /\ ipRegex_test (ip_address formData) = true /\ (1 <= q <= 65535)%Q in
  (valid /\ check formData = request formData)
  \/ (~ valid /\ exists message, check formData = setError message /\ message <> "").
Proof.
  intros Hport. cbv zeta. unfold check. rewrite Hport. cbn [gt].
  destruct (blank (name formData)); cbn [orb];
    [right; split; [intros (H & _); discriminate|eexists; split; [reflexivity|discriminate]]|].
  destruct (blank (ip_address formData)); cbn [orb];
    [right; split; [intros (_ & H & _); discriminate|eexists; split; [reflexivity|discriminate]]|].
  destruct (ipRegex_test (ip_address formData)); cbn [negb];
    [|right; split; [intros (_ & _ & H & _); discriminate|eexists; split; [reflexivity|discriminate]]].
  destruct (Qltb q 1) eqn:E1; cbn [orb].
  { apply Qltb_true in E1. right. split; [intros (_ & _ & _ & H & _); lra|].
    eexists; split; [reflexivity|discriminate]. }
  destruct (Qltb 65535 q) eqn:E2.
  { apply Qltb_true in E2. right. split; [intros (_ & _ & _ & _ & H); lra|].
    eexists; split; [reflexivity|discriminate]. }
  apply Qltb_false in E1, E2. cbn [orb]. left.
  repeat split; first [assumption|reflexivity].
Qed.

(** Submitting the form sends a request exactly when the name and the
    address are not blank, the address passes the check and the port is
    between 1 and 65535; the request carries the form as it is.  The modal
    closes exactly when the request was sent and succeeded, and then the
    form is reset; in every other case the form keeps what was typed and
    a non-empty error text is shown. *)
Theorem submit_requests_only_valid_forms reply formData (q : Q) :
  port formData = Num q ->
  let r := handleSubmit reply formData in
  (is_Some (requested r) <->
     blank (name formData) = false /\ blank (ip_address formData) = false
     /\ ipRegex_test (ip_address formData) = true /\ (1 <= q <= 65535)%Q)
  /\ (forall data, requested r = Some data -> data = formData)
  /\ (closed r = true <-> is_Some (requested r) /\ reply = None)
  /\ (closed r = true -> formData_after r = empty_form /\ error_text r = "")
  /\ (closed r = false -> formData_after r = formData /\ error_text r <> "").
Proof.
  intros Hport. cbv zeta. unfold handleSubmit.
  destruct (check_spec formData q Hport) as [[Hvalid ->]|[Hinvalid (message & -> & Hmsg)]].
  - assert (Hshape :
      exists text cl after,
        match reply with
        | Some ECONNABORTED =>
            mkFormState formData "The request timed out. Please try again." false
                        (Some formData)
        | Some (with_detail detail) =>
            if truthy_string detail
            then mkFormState formData ("Error: " +:+ detail) false (Some formData)
            else mkFormState formData
                   "Failed to add camera. Please check the connection details."
                   false (Some formData)
        | Some other_failure =>
            mkFormState formData
              "Failed to add camera. Please check the connection details."
              false (Some formData)
        | None => mkFormState empty_form "" true (Some formData)
        end = mkFormState after text cl (Some formData)
        /\ (cl = true <-> reply = None)
        /\ (cl = true -> after = empty_form /\ text = "")
        /\ (cl = false -> after = formData /\ text <> "")).
    { destruct reply as [[|detail|]|]; [|destruct (truthy_string detail)|..];
        eexists _, _, _; (split; [reflexivity|]);
        repeat split; try discriminate; try tauto. }
    destruct Hshape as (text & cl & after & -> & Hcl & Hreset & Hkept). simpl.
    split; [|split; [|split; [|split]]].
    + split; [intros _; exact Hvalid|intros _; eauto].
    + intros data [= <-]. reflexivity.
    + rewrite Hcl. split; [intros H; split; eauto|tauto].
    + exact Hreset.
    + exact Hkept.
  - simpl. split; [|split; [|split; [|split]]].
    + split; [intros [? H]; discriminate|intros H; contradiction].
    + discriminate.
    + split; [discriminate|intros [[? H] _]; discriminate].
    + discriminate.
    + intros _. split; [reflexivity|exact Hmsg].
Qed.

Lemma submit_requests_only_valid_forms_witness :
  let formData := mkForm "Porch" "192.168.1.20" (Num 8080) in
  closed (handleSubmit None formData) = true
  /\ requested (handleSubmit None formData) = Some formData.
Proof.
  cbv zeta.
  destruct (submit_requests_only_valid_forms None
              (mkForm "Porch" "192.168.1.20" (Num 8080)) 8080 eq_refl)
    as (Hreq & Hdata & Hclosed & _).
  assert (Hsome : is_Some (requested (handleSubmit None
                    (mkForm "Porch" "192.168.1.20" (Num 8080))))).
  { apply Hreq. repeat split; try reflexivity; discriminate. }
  split; [apply Hclosed; auto|].
  destruct Hsome as [data Hd]. rewrite Hd. f_equal. exact (Hdata _ Hd).
Defined.

End FormFacts.
